(** * Crossblade: type declarations, playback synchronisation and build script

    The repository consists of two revisions of the module's type
    declaration file ([src/unnamed/part_000], lines 1-96 and 97-199) and
    of the build script [gulpfile.cjs].

    - The declarations are embedded as data ([TS], [V1], [V2]): an
      interface is the list of its members, a union the list of its
      alternatives.
    - The enumeration [LogLevel] and the two wire payload interfaces are
      also embedded as Rocq types ([DevMode], [Sync]).
    - The build script is embedded over a model of the file system
      ([Gulp]): a finite map from absolute paths to nodes, threaded through
      a state-and-exception monad. *)

From stdpp Require Import gmap strings list fin_maps.
From Stdlib Require Import ZArith Ascii.

Set Warnings "-register-all".

Local Open Scope string_scope.

(** ** TypeScript declarations as data *)

Module TS.

(** The type expressions that occur in the declaration files. *)
Inductive ts_type : Type :=
  | TBoolean
  | TNumber
  | TString
  | TLit (s : string)                      (* a string literal type *)
  | TRef (name : string)                   (* a declared or host type *)
  | TArray (elem : ts_type)                (* [T[]] *)
  | TUnion (alts : list ts_type)           (* [A | B | ...] *)
  | TMap (key val : ts_type)               (* [Map<K, V>] *)
  | TRecord (key val : ts_type)            (* [Record<K, V>] *)
  | TObject (members : list member)        (* [{ ... }] *)
with member : Type :=
  | Member (name : string) (optional : bool) (ty : ts_type).

Definition member_name (m : member) : string :=
  match m with Member n _ _ => n end.

Definition member_type (m : member) : ts_type :=
  match m with Member _ _ t => t end.

Inductive visibility : Type := Public | Protected.

Inductive decl : Type :=
  | Interface (extends : list ts_type) (members : list member)
  | TypeAlias (body : ts_type)
  | AbstractClass (super : string) (members : list (visibility * member)).

(** A declaration file, in source order. *)
Definition file : Type := list (string * decl).

Fixpoint lookup_decl (name : string) (f : file) : option decl :=
  match f with
  | [] => None
  | (n, d) :: rest => if String.eqb n name then Some d else lookup_decl name rest
  end.

Fixpoint find_member (name : string) (ms : list member) : option member :=
  match ms with
  | [] => None
  | m :: rest =>
      if String.eqb (member_name m) name then Some m else find_member name rest
  end.

Definition member_names (ms : list member) : list string :=
  map member_name ms.

(** The members an interface or class declares (none for an alias). *)
Definition decl_members (d : decl) : list member :=
  match d with
  | Interface _ ms => ms
  | TypeAlias _ => []
  | AbstractClass _ ms => map snd ms
  end.

Definition members_of (name : string) (f : file) : list member :=
  match lookup_decl name f with
  | Some d => decl_members d
  | None => []
  end.

(** The string literals of a union of literal types. *)
Definition literals (t : ts_type) : list string :=
  match t with
  | TLit s => [s]
  | TUnion alts =>
      flat_map (fun a => match a with TLit s => [s] | _ => [] end) alts
  | _ => []
  end.

Definition alias_literals (name : string) (f : file) : list string :=
  match lookup_decl name f with
  | Some (TypeAlias t) => literals t
  | _ => []
  end.

(** How many array constructors wrap the element type: 1 for [T[]], 2 for
    [T[][]], 0 when the type is not an array. *)
Fixpoint array_depth (t : ts_type) : nat :=
  match t with
  | TArray e => S (array_depth e)
  | _ => 0
  end.

Fixpoint array_element (t : ts_type) : ts_type :=
  match t with
  | TArray e => array_element e
  | _ => t
  end.

End TS.

Import TS.

(** ** First declaration file ([part_000], lines 1-96) *)

Module V1.

Definition PlaylistUpdateData : decl :=
  Interface []
    [ Member "playing" true TBoolean;
      Member "sounds" true (TArray (TRef "PlaylistSoundUpdateData")) ].

Definition PlaylistSoundUpdateData : decl :=
  Interface []
    [ Member "_id" false TString;
      Member "playing" true TBoolean;
      Member "pausedTime" true TNumber ].

Definition CrossbladePlaylistSound : decl :=
  AbstractClass "PlaylistSound"
    [ (Public,
       Member "crossbladeSounds" true
         (TMap (TRef "CrossbladeEventKey") (TArray (TRef "Sound"))));
      (Protected,
       Member "_crossbladeSounds" true
         (TMap (TRef "CrossbladeEventKey") (TArray (TRef "Sound")))) ].

Definition SoundLayer : decl :=
  Interface []
    [ Member "src" true TString;
      Member "events" true (TArray (TRef "CrossbladeEventKey")) ].

Definition CrossbladeEvent : decl :=
  Interface []
    [ Member "label" false TString;
      Member "description" false TString ].

Definition CrossbladeEventKey : decl :=
  TypeAlias
    (TUnion
       [ TLit "COMBAT_DISPOSITION_FRIENDLY";
         TLit "COMBAT_DISPOSITION_NEUTRAL";
         TLit "COMBAT_DISPOSITION_HOSTILE";
         TLit "GAME_PAUSED";
         TLit "DEFAULT" ]).

Definition CrossbladeSoundLayer : decl :=
  Interface [ TRecord TString (TUnion [TString; TArray TString]) ]
    [ Member "src" false TString;
      Member "events" false (TArray TString) ].

Definition CrossbladeFlags : decl :=
  Interface []
    [ Member "crossblade" true
        (TObject
           [ Member "soundLayers" true
               (TArray (TRef "CrossbladeSoundLayer")) ]) ].

Definition declarations : file :=
  [ ("PlaylistUpdateData", PlaylistUpdateData);
    ("PlaylistSoundUpdateData", PlaylistSoundUpdateData);
    ("CrossbladePlaylistSound", CrossbladePlaylistSound);
    ("SoundLayer", SoundLayer);
    ("CrossbladeEvent", CrossbladeEvent);
    ("CrossbladeEventKey", CrossbladeEventKey);
    ("CrossbladeSoundLayer", CrossbladeSoundLayer);
    ("CrossbladeFlags", CrossbladeFlags) ].

End V1.

(** ** Second declaration file ([part_000], lines 97-199) *)

Module V2.

Definition PlaylistUpdateData : decl :=
  Interface []
    [ Member "playing" true TBoolean;
      Member "sounds" true (TArray (TRef "PlaylistSoundUpdateData")) ].

Definition PlaylistSoundUpdateData : decl :=
  Interface []
    [ Member "_id" false TString;
      Member "playing" true TBoolean;
      Member "pausedTime" true TNumber ].

Definition CrossbladePlaylistSound : decl :=
  AbstractClass "PlaylistSound"
    [ (Public,
       Member "cbSoundLayers" true (TMap (TRef "Sound") (TArray TString)));
      (Protected,
       Member "_cbSoundLayers" true (TMap (TRef "Sound") (TArray TString))) ].

Definition SoundLayer : decl :=
  Interface []
    [ Member "src" true TString;
      Member "events" true (TArray (TArray TString)) ].

Definition CrossbladeEvent : decl :=
  Interface []
    [ Member "key" false (TRef "CrossbladeEventKey");
      Member "label" false TString;
      Member "description" false TString;
      Member "options" true (TRecord TString TString);
      Member "isCustom" true TBoolean ].

Definition CrossbladeEventKey : decl :=
  TypeAlias
    (TUnion [ TLit "DEFAULT"; TLit "COMBATANT"; TLit "GAME"; TLit "CUSTOM" ]).

Definition CrossbladeSoundLayer : decl :=
  Interface [ TRecord TString (TUnion [TString; TArray TString]) ]
    [ Member "src" false TString;
      Member "events" false (TArray TString) ].

Definition CrossbladeFlags : decl :=
  Interface []
    [ Member "crossblade" true
        (TObject
           [ Member "soundLayers" true
               (TArray (TRef "CrossbladeSoundLayer")) ]) ].

Definition declarations : file :=
  [ ("PlaylistUpdateData", PlaylistUpdateData);
    ("PlaylistSoundUpdateData", PlaylistSoundUpdateData);
    ("CrossbladePlaylistSound", CrossbladePlaylistSound);
    ("SoundLayer", SoundLayer);
    ("CrossbladeEvent", CrossbladeEvent);
    ("CrossbladeEventKey", CrossbladeEventKey);
    ("CrossbladeSoundLayer", CrossbladeSoundLayer);
    ("CrossbladeFlags", CrossbladeFlags) ].

End V2.

(** Both revisions of the declaration file. *)
Definition variants : list file := [V1.declarations; V2.declarations].

(** ** JavaScript results *)

Module Js.

Inductive errno : Type := ENOENT | EEXIST | ENOTDIR | EISDIR | ELOOP.

(** What a [throw] carries: [new Error(message)] or the error of a failed
    system call. *)
Inductive exn : Type :=
  | Error (message : string)
  | SystemError (code : errno).

Inductive result (A : Type) : Type :=
  | Return (a : A)
  | Throw (e : exn).

Arguments Return {A} a.
Arguments Throw {A} e.

End Js.

Import Js.

(** ** Dev Mode ([part_000], lines 28-51 and 133-156; equal in both files) *)

Module DevMode.

Inductive LogLevel : Type := NONE | INFO | ERROR | DEBUG | WARN | ALL.

(** The numeric value the enum declaration gives each member. *)
Definition LogLevel_value (l : LogLevel) : Z :=
  match l with
  | NONE => 0
  | INFO => 1
  | ERROR => 2
  | DEBUG => 3
  | WARN => 4
  | ALL => 5
  end.

Definition LogLevel_members : list LogLevel :=
  [NONE; INFO; ERROR; DEBUG; WARN; ALL].

(** ['boolean' | 'level'] *)
Inductive kind : Type := KBoolean | KLevel.

(** [boolean | LogLevel] *)
Inductive debug_value : Type :=
  | DBool (b : bool)
  | DLevel (l : LogLevel).

Record debug_options : Type := {
  default_value : option debug_value;
  choiceLabelOverrides : option (list (string * string))
}.

(** [interface DevModeApi]; a [Promise<boolean>] is modelled by the boolean
    it resolves to. *)
Record DevModeApi : Type := {
  registerPackageDebugFlag :
    string -> option kind -> option debug_options -> bool;
  getPackageDebugValue : string -> option kind -> debug_value
}.

(** [interface DevModeModuleData]: the [api] member is optional. *)
Record DevModeModuleData : Type := {
  api : option DevModeApi
}.

(** Modelled from the spec: the adapter through which the module reads its
    debug flag is not part of the source files (only the declarations of
    the service above are).  Spec 4.4 and 7: the debug-mode service is
    optional; when it is absent every call is a no-op that returns a benign
    default, [false] for the boolean kind and [NONE] for the level kind.
    [service] is the host's registry entry of the debug-mode module, [None]
    when it is not installed; an omitted [kind] is the boolean kind. *)
Definition benign_default (k : option kind) : debug_value :=
  match k with
  | Some KLevel => DLevel NONE
  | _ => DBool false
  end.

Definition service_api (service : option DevModeModuleData)
  : option DevModeApi :=
  match service with
  | Some m => api m
  | None => None
  end.

Definition readPackageDebugValue (service : option DevModeModuleData)
    (packageName : string) (k : option kind) : result debug_value :=
  match service_api service with
  | Some a => Return (getPackageDebugValue a packageName k)
  | None => Return (benign_default k)
  end.

End DevMode.

(** ** Playback synchronisation payloads ([part_000], lines 3-12 and 108-117) *)

Module Sync.

Section WithNumber.

(** A JavaScript [number]; the payload is only stored, never computed
    with, so its representation is left open. *)
Context {number : Type}.

Record PlaylistSoundUpdateData : Type := {
  _id : string;
  playing : option bool;
  pausedTime : option number
}.

Record PlaylistUpdateData : Type := {
  playlist_playing : option bool;
  sounds : option (list PlaylistSoundUpdateData)
}.

(** Modelled from the spec: the handler with which a receiving client
    applies a payload is not part of the source files.  Spec 4.3, 5 and 8:
    a payload describes the desired end state per sound, not a delta; a
    client's local state for a sound is its [playing] flag and its
    [pausedTime]; after applying [{_id, playing, pausedTime}] the local
    state of that sound has these values regardless of the prior state;
    later entries win over earlier ones for the same id.  A member the
    payload omits leaves that part of the state as it is. *)
Record SoundState : Type := {
  state_playing : bool;
  state_pausedTime : number
}.

Record ClientState : Type := {
  client_playing : bool;
  client_sounds : gmap string SoundState
}.

(** The spec does not say what a client does with an update for a sound
    it has no state for.  [unknown] decides it: [None] ignores the update,
    [Some d] starts the sound from [d]. *)
Context (unknown : option SoundState).

Definition updateSound (u : PlaylistSoundUpdateData) (st : SoundState)
  : SoundState :=
  {| state_playing := default (state_playing st) (playing u);
     state_pausedTime := default (state_pausedTime st) (pausedTime u) |}.

(** Two updates of one sound merged into one: the later one, [w], wins
    member by member. *)
Definition later_wins (u w : PlaylistSoundUpdateData)
  : PlaylistSoundUpdateData :=
  {| _id := _id w;
     playing := match playing w with Some b => Some b | None => playing u end;
     pausedTime :=
       match pausedTime w with Some t => Some t | None => pausedTime u end |}.

Definition updateEntry (u : PlaylistSoundUpdateData)
    (o : option SoundState) : option SoundState :=
  match o with
  | Some st => Some (updateSound u st)
  | None => updateSound u <$> unknown
  end.

Definition applySoundUpdate (m : gmap string SoundState)
    (u : PlaylistSoundUpdateData) : gmap string SoundState :=
  partial_alter (updateEntry u) (_id u) m.

Definition applySoundUpdates (us : list PlaylistSoundUpdateData)
    (m : gmap string SoundState) : gmap string SoundState :=
  foldl applySoundUpdate m us.

Definition applyUpdate (p : PlaylistUpdateData) (s : ClientState)
  : ClientState :=
  {| client_playing := default (client_playing s) (playlist_playing p);
     client_sounds :=
       applySoundUpdates (default [] (sounds p)) (client_sounds s) |}.

End WithNumber.

Arguments PlaylistSoundUpdateData : clear implicits.
Arguments PlaylistUpdateData : clear implicits.
Arguments SoundState : clear implicits.
Arguments ClientState : clear implicits.

End Sync.

(** ** The build script ([gulpfile.cjs]) *)

Module Gulp.

(** *** Paths

    An absolute, normalised path is the list of its segments below the
    root: [["home"; "me"]] is [/home/me] and [[]] is [/]. *)

(** Cut a string at every [/]. *)
Fixpoint segments_from (cur : string) (s : string) : list string :=
  match s with
  | EmptyString => [cur]
  | String c rest =>
      if Ascii.eqb c "/"%char then cur :: segments_from "" rest
      else segments_from (cur +:+ String c "") rest
  end.

Definition segments (s : string) : list string := segments_from "" s.

Definition is_absolute (s : string) : bool :=
  match s with
  | String c _ => Ascii.eqb c "/"%char
  | EmptyString => false
  end.

Definition apply_segment (stack : list string) (seg : string) : list string :=
  if String.eqb seg "" then stack
  else if String.eqb seg "." then stack
  else if String.eqb seg ".." then removelast stack
  else (stack ++ [seg])%list.

(** [path.resolve] on POSIX, one argument at a time, left to right: an
    absolute argument starts again from the root, a relative one continues
    from what the arguments before it gave; [.] and empty segments are
    dropped and [..] pops a segment.  [base] is the working directory. *)
Definition resolve_one (base : list string) (arg : string) : list string :=
  foldl apply_segment (if is_absolute arg then [] else base) (segments arg).

Definition path_resolve (base : list string) (args : list string)
  : list string :=
  foldl resolve_one base args.

Global Arguments path_resolve : simpl never.

(** *** The file system *)

Inductive node : Type :=
  | File (content : string)
  | Dir
  | Symlink (target : list string).

Abbreviation FS := (gmap (list string) node).

(** What is at a path, not following a link ([lstat]); the root is always
    a directory. *)
Definition lookup_node (fs : FS) (p : list string) : option node :=
  match p with
  | [] => Some Dir
  | _ => fs !! p
  end.

(** Follow the links at [p] until something that is not a link, giving up
    after [fuel] links ([ELOOP]). *)
Fixpoint resolves (fuel : nat) (fs : FS) (p : list string) : bool :=
  match lookup_node fs p with
  | None => false
  | Some (Symlink t) =>
      match fuel with
      | O => false
      | S n => resolves n fs t
      end
  | Some _ => true
  end.

Global Arguments resolves : simpl never.

(** The non-empty prefixes of a path: the path itself and the directories
    above it, the root apart. *)
Fixpoint prefixes (p : list string) : list (list string) :=
  match p with
  | [] => []
  | x :: rest => [x] :: map (cons x) (prefixes rest)
  end.

Definition is_file (o : option node) : bool :=
  match o with
  | Some (File _) => true
  | _ => false
  end.

Definition is_dir (n : node) : bool :=
  match n with
  | Dir => true
  | _ => false
  end.

(** The directories [mkdir -p p] asks for. *)
Definition dirs_of (p : list string) : FS :=
  list_to_map (map (fun q => (q, Dir)) (prefixes p)).

(** The entries of [fs] at and below [s], moved to [d]. *)
Definition graft (s d : list string) (fs : FS) : FS :=
  map_fold
    (fun k v acc =>
       if decide (s `prefix_of` k) then <[(d ++ drop (length s) k)%list := v]> acc
       else acc)
    ∅ fs.

(** *** Effects: the file system is threaded through; a throw keeps the
    state reached so far. *)

Definition M (A : Type) : Type := FS -> result A * FS.

Definition ret {A} (a : A) : M A := fun fs => (Return a, fs).

Definition throw {A} (e : exn) : M A := fun fs => (Throw e, fs).

Definition bind {A B} (m : M A) (k : A -> M B) : M B :=
  fun fs =>
    match m fs with
    | (Return a, fs') => k a fs'
    | (Throw e, fs') => (Throw e, fs')
    end.

Notation "x <- m ;; k" := (bind m (fun x => k))
  (at level 100, m at next level, right associativity).
Notation "m ;;; k" := (bind m (fun _ => k))
  (at level 100, right associativity).

(** The final state of a run and its result. *)
Definition exec {A} (m : M A) (fs : FS) : FS := snd (m fs).
Definition outcome {A} (m : M A) (fs : FS) : result A := fst (m fs).

(** *** fs-extra *)

(** [fs.existsSync]: follows links (at most 40, as Linux does); never
    throws. *)
Definition existsSync (p : list string) : M bool :=
  fun fs => (Return (resolves 40 fs p), fs).

(** [fs.ensureDir]: [mkdir -p]; fails on a path that runs through a file. *)
Definition ensureDir (p : list string) : M unit :=
  fun fs =>
    if existsb (fun q => is_file (fs !! q)) (prefixes p)
    then (Throw (SystemError ENOTDIR), fs)
    else (Return tt, fs ∪ dirs_of p).

(** [fs.symlink target p]: creates the link [p]; fails when something is
    at [p] already or when the directory above [p] is missing. *)
Definition symlink (target p : list string) : M unit :=
  fun fs =>
    match lookup_node fs p with
    | Some _ => (Throw (SystemError EEXIST), fs)
    | None =>
        match lookup_node fs (removelast p) with
        | None => (Throw (SystemError ENOENT), fs)
        | Some (File _) => (Throw (SystemError ENOTDIR), fs)
        | Some _ => (Return tt, <[p := Symlink target]> fs)
        end
    end.

(** [fs.remove]: [rm -rf]; removes [p] and all below it, never fails. *)
Definition remove (p : list string) : M unit :=
  fun fs => (Return tt, filter (fun kv => ¬ p `prefix_of` kv.1) fs).

(** [fs.copy s d]: copies the file, link or directory tree at [s] to [d],
    creating the directories above [d] and overwriting what is there; fails
    when there is nothing at [s] and when a directory would replace a
    non-directory or the reverse. *)
Definition copy (s d : list string) : M unit :=
  fun fs =>
    match lookup_node fs s with
    | None => (Throw (SystemError ENOENT), fs)
    | Some n =>
        match lookup_node fs d with
        | Some n' =>
            if Bool.eqb (is_dir n) (is_dir n')
            then (_ <- ensureDir (removelast d) ;;
                  fun fs' => (Return tt, graft s d fs ∪ fs')) fs
            else (Throw (SystemError (if is_dir n' then EISDIR else ENOTDIR)), fs)
        | None =>
            (_ <- ensureDir (removelast d) ;;
             fun fs' => (Return tt, graft s d fs ∪ fs')) fs
        end
    end.

(** *** The process *)

(** What [config?.dataPath] sees of the JSON value of [foundryconfig.json]:
    [null], or a value whose [dataPath], when defined, is a string (what
    [path.resolve] takes). *)
Inductive json_config : Type :=
  | JNull
  | JObject (dataPath : option string).

Record env : Type := {
  cwd : list string;                    (* [process.cwd()] *)
  foundryconfig : result json_config;   (* reading and parsing the file *)
  argv_clean : bool                     (* [--clean] / [-c], default false *)
}.

(** [fs.readJSONSync('foundryconfig.json')]; none of the operations of the
    script writes that file, so its parsed content is part of [env]. *)
Definition readJSONSync_foundryconfig (e : env) : M json_config :=
  fun fs => (foundryconfig e, fs).

(** [config?.dataPath] *)
Definition config_dataPath (config : json_config) : option string :=
  match config with
  | JNull => None
  | JObject d => d
  end.

(** Truthiness of an optional string: undefined and [''] are falsy. *)
Definition truthy (o : option string) : bool :=
  match o with
  | None => false
  | Some s => negb (String.eqb s "")
  end.

(** *** Configuration (lines 18-26) *)

Definition name : string := "crossblade".
Definition sourceDirectory : string := "./src".
Definition distDirectory : string := "./dist".
Definition staticFiles : list string :=
  ["assets"; "fonts"; "lang"; "packs"; "templates"; "module.json"].
Definition projectDirectory : string := ".".
Definition projectFiles : list string := ["README.md"; "CHANGELOG.md"].

(** *** copyFiles (lines 59-70) *)

(** One [for ... of] loop: [`${fromDirectory}/${file}`] is copied to
    [`${distDirectory}/${file}`] if it exists. *)
Fixpoint copyEach (e : env) (fromDirectory : string) (files : list string)
  : M unit :=
  match files with
  | [] => ret tt
  | file :: rest =>
      found <- existsSync (path_resolve (cwd e) [fromDirectory +:+ "/" +:+ file]) ;;
      (if found : bool
       then copy (path_resolve (cwd e) [fromDirectory +:+ "/" +:+ file])
                 (path_resolve (cwd e) [distDirectory +:+ "/" +:+ file])
       else ret tt) ;;;
      copyEach e fromDirectory rest
  end.

Definition copyFiles (e : env) : M unit :=
  copyEach e sourceDirectory staticFiles ;;;
  copyEach e projectDirectory projectFiles.

(** *** getDataPath (lines 114-126) *)

Definition getDataPath (e : env) : M (list string) :=
  config <- readJSONSync_foundryconfig e ;;
  match config_dataPath config with
  | Some dataPath =>
      if truthy (Some dataPath) then
        found <- existsSync (path_resolve (cwd e) [dataPath]) ;;
        if negb found
        then throw (Error "User Data path invalid, no Data directory found")
        else ret (path_resolve (cwd e) [dataPath])
      else throw (Error "No User Data path defined in foundryconfig.json")
  | None => throw (Error "No User Data path defined in foundryconfig.json")
  end.

(** *** link (lines 131-157); the [console.log] calls are left out *)

(** [path.resolve(getDataPath(), 'Data', destinationDirectory, name)]: the
    first argument is an absolute path, so the result does not depend on
    the working directory. *)
Definition linkDirectory (dataPath : list string)
    (destinationDirectory : string) : list string :=
  path_resolve dataPath ["Data"; destinationDirectory; name].

Definition link (e : env) : M unit :=
  found <- existsSync (path_resolve (cwd e) [sourceDirectory; "module.json"]) ;;
  destinationDirectory <-
    (if found : bool then ret "modules"
     else throw (Error "Could not find module.json")) ;;
  dataPath <- getDataPath e ;;
  let linkDirectory := linkDirectory dataPath destinationDirectory in
  let clean := argv_clean e in
  if clean then remove linkDirectory
  else
    linked <- existsSync linkDirectory ;;
    if negb linked then
      ensureDir (path_resolve linkDirectory [".."]) ;;;
      symlink (path_resolve (cwd e) [distDirectory]) linkDirectory
    else ret tt.

(** *** clean (lines 92-105); the [console.log] calls are left out *)

Definition stylesDirectory : string := sourceDirectory +:+ "/styles".
Definition stylesExtension : string := "css".

(** The [for ... of] loop: [fs.remove(`${distDirectory}/${filePath}`)] for
    each entry, in order. *)
Fixpoint removeEach (e : env) (files : list string) : M unit :=
  match files with
  | [] => ret tt
  | filePath :: rest =>
      remove (path_resolve (cwd e) [distDirectory +:+ "/" +:+ filePath]) ;;;
      removeEach e rest
  end.

(** [files]: the static files, the project files and ['module'], and
    ['styles'] pushed at the end when the style sheet of the sources
    exists. *)
Definition clean_files (found : bool) : list string :=
  let files := (staticFiles ++ projectFiles ++ ["module"])%list in
  if found then (files ++ ["styles"])%list else files.

Definition clean (e : env) : M unit :=
  found <- existsSync
             (path_resolve (cwd e)
                [stylesDirectory +:+ "/" +:+ name +:+ "." +:+ stylesExtension]) ;;
  removeEach e (clean_files found).

End Gulp.

(** ** What the specification says about the declarations *)

Module Spec.

(** Spec 6: [PlaylistUpdateData { playing?, sounds?: PlaylistSoundUpdateData[] }]. *)
Definition PlaylistUpdateData_shape : list member :=
  [ Member "playing" true TBoolean;
    Member "sounds" true (TArray (TRef "PlaylistSoundUpdateData")) ].

(** Spec 6: [PlaylistSoundUpdateData { _id, playing?, pausedTime? }]. *)
Definition PlaylistSoundUpdateData_shape : list member :=
  [ Member "_id" false TString;
    Member "playing" true TBoolean;
    Member "pausedTime" true TNumber ].

(** Spec 6: [crossblade.soundLayers] is a list of
    [{src: string, events: string[]}] records; both keys are optional. *)
Definition flag_schema (f : file) : Prop :=
  exists inner elem ext ms events,
    members_of "CrossbladeFlags" f
      = [Member "crossblade" true (TObject inner)] /\
    inner = [Member "soundLayers" true (TArray (TRef elem))] /\
    lookup_decl elem f = Some (Interface ext ms) /\
    member_names ms = ["src"; "events"] /\
    find_member "src" ms = Some (Member "src" false TString) /\
    find_member "events" ms = Some (Member "events" false events) /\
    array_depth events = 1 /\
    array_element events = TString.

(** Spec 3: a CrossbladeEvent has a key, a label, a description and an
    optional custom flag. *)
Definition event_attributes (f : file) : Prop :=
  let ms := members_of "CrossbladeEvent" f in
  is_Some (find_member "key" ms) /\
  is_Some (find_member "label" ms) /\
  is_Some (find_member "description" ms) /\
  exists t, find_member "isCustom" ms = Some (Member "isCustom" true t).

(** Spec 2: a Sound Layer pairs an audio source with the set of event keys
    that activate it; both members are optional and the events are a list
    of keys, not a list of lists. *)
Definition flat_sound_layer (f : file) : Prop :=
  let ms := members_of "SoundLayer" f in
  find_member "src" ms = Some (Member "src" true TString) /\
  exists t,
    find_member "events" ms = Some (Member "events" true t) /\
    array_depth t = 1.

End Spec.

(** ** A small project on disk, for concrete runs *)

Module Scenario.

Import Gulp.

(** The project is checked out in [/w]; Foundry's data are in [/data]. *)
Definition project : Gulp.env :=
  {| cwd := ["w"];
     foundryconfig := Return (JObject (Some "/data"));
     argv_clean := false |}.

Definition project_clean : Gulp.env :=
  {| cwd := ["w"];
     foundryconfig := Return (JObject (Some "/data"));
     argv_clean := true |}.

(** The configuration file has no [dataPath]. *)
Definition project_unconfigured : Gulp.env :=
  {| cwd := ["w"];
     foundryconfig := Return (JObject None);
     argv_clean := false |}.

(** Sources with [lang], [module.json] and [README.md] only; nothing is
    built and nothing is linked. *)
Definition disk : gmap (list string) node :=
  {[ ["w"] := Dir;
     ["w"; "src"] := Dir;
     ["w"; "src"; "module.json"] := File "{}";
     ["w"; "src"; "lang"] := Dir;
     ["w"; "src"; "lang"; "en.json"] := File "en";
     ["w"; "README.md"] := File "readme";
     ["data"] := Dir ]}.

(** The same with [dist] built. *)
Definition disk_built : gmap (list string) node :=
  <[ ["w"; "dist"] := Dir ]> disk.

End Scenario.

(** ** A disk with a build in [dist], for concrete runs *)

Module Staged.

Import Gulp.

(** [dist] holds an [assets] directory that has no source any more, a
    style sheet whose source is gone too, and a file the build does not
    know. *)
Definition disk : gmap (list string) node :=
  {[ ["w"] := Dir;
     ["w"; "src"] := Dir;
     ["w"; "src"; "module.json"] := File "{}";
     ["w"; "dist"] := Dir;
     ["w"; "dist"; "assets"] := Dir;
     ["w"; "dist"; "assets"; "old.png"] := File "old";
     ["w"; "dist"; "styles"] := Dir;
     ["w"; "dist"; "styles"; "crossblade.css"] := File "css";
     ["w"; "dist"; "notes.txt"] := File "keep";
     ["data"] := Dir ]}.

End Staged.

(** * Theorems *)

(** ** The declaration files *)

(** C1: the two declaration files diverge.  The event keys of the first are
    the five keys COMBAT_DISPOSITION_FRIENDLY, COMBAT_DISPOSITION_NEUTRAL,
    COMBAT_DISPOSITION_HOSTILE, GAME_PAUSED and DEFAULT, those of the
    second the four keys DEFAULT, COMBATANT, GAME and CUSTOM; DEFAULT is
    the only key in both.  The runtime map is [crossbladeSounds :
    Map<CrossbladeEventKey, Sound[]>] in the first file and [cbSoundLayers :
    Map<Sound, string[]>] in the second, neither name occurs in the other
    file, and neither the key declarations nor the class declarations are
    equal. *)
Theorem event_key_variants_diverge :
  let keys1 := alias_literals "CrossbladeEventKey" V1.declarations in
  let keys2 := alias_literals "CrossbladeEventKey" V2.declarations in
  let class1 := members_of "CrossbladePlaylistSound" V1.declarations in
  let class2 := members_of "CrossbladePlaylistSound" V2.declarations in
  (NoDup keys1 /\
   forall k, k ∈ keys1 <->
     k = "COMBAT_DISPOSITION_FRIENDLY" \/ k = "COMBAT_DISPOSITION_NEUTRAL" \/
     k = "COMBAT_DISPOSITION_HOSTILE" \/ k = "GAME_PAUSED" \/ k = "DEFAULT") /\
  (NoDup keys2 /\
   forall k, k ∈ keys2 <->
     k = "DEFAULT" \/ k = "COMBATANT" \/ k = "GAME" \/ k = "CUSTOM") /\
  (forall k, k ∈ keys1 /\ k ∈ keys2 <-> k = "DEFAULT") /\
  find_member "crossbladeSounds" class1
    = Some (Member "crossbladeSounds" true
              (TMap (TRef "CrossbladeEventKey") (TArray (TRef "Sound")))) /\
  find_member "cbSoundLayers" class2
    = Some (Member "cbSoundLayers" true
              (TMap (TRef "Sound") (TArray TString))) /\
  find_member "cbSoundLayers" class1 = None /\
  find_member "crossbladeSounds" class2 = None /\
  member_name <$> find_member "crossbladeSounds" class1
    <> member_name <$> find_member "cbSoundLayers" class2 /\
  member_type <$> find_member "crossbladeSounds" class1
    <> member_type <$> find_member "cbSoundLayers" class2 /\
  lookup_decl "CrossbladeEventKey" V1.declarations
    <> lookup_decl "CrossbladeEventKey" V2.declarations /\
  lookup_decl "CrossbladePlaylistSound" V1.declarations
    <> lookup_decl "CrossbladePlaylistSound" V2.declarations.
Proof.
  cbv zeta.
  assert (K1 : alias_literals "CrossbladeEventKey" V1.declarations
               = ["COMBAT_DISPOSITION_FRIENDLY"; "COMBAT_DISPOSITION_NEUTRAL";
                  "COMBAT_DISPOSITION_HOSTILE"; "GAME_PAUSED"; "DEFAULT"])
    by reflexivity.
  assert (K2 : alias_literals "CrossbladeEventKey" V2.declarations
               = ["DEFAULT"; "COMBATANT"; "GAME"; "CUSTOM"])
    by reflexivity.
  rewrite K1, K2.
  split; [split|split; [split|split]].
  - apply (bool_decide_unpack _). by vm_compute.
  - intros k. rewrite !elem_of_cons, elem_of_nil. tauto.
  - apply (bool_decide_unpack _). by vm_compute.
  - intros k. rewrite !elem_of_cons, elem_of_nil. tauto.
  - intros k. rewrite !elem_of_cons, !elem_of_nil. split.
    + intros [H1 H2].
      destruct H1 as [->|[->|[->|[->|[->|[]]]]]]; try reflexivity;
        destruct H2 as [H|[H|[H|[H|[]]]]]; discriminate H.
    + intros ->. split; auto 10.
  - do 4 (split; [reflexivity|]). repeat split; discriminate.
Qed.

(** C2: in both declaration files the wire payloads have the shapes of the
    specification: [PlaylistUpdateData] is exactly an optional boolean
    [playing] and an optional list [sounds] of [PlaylistSoundUpdateData];
    [PlaylistSoundUpdateData] is exactly a mandatory string [_id], an
    optional boolean [playing] and an optional number [pausedTime]; neither
    extends another type. *)
Theorem wire_payload_shapes :
  Forall
    (fun f =>
       lookup_decl "PlaylistUpdateData" f
         = Some (Interface [] Spec.PlaylistUpdateData_shape) /\
       lookup_decl "PlaylistSoundUpdateData" f
         = Some (Interface [] Spec.PlaylistSoundUpdateData_shape))
    variants.
Proof.
  unfold variants. repeat constructor.
Qed.

(** C3: in both declaration files [CrossbladeFlags] has the one optional
    member [crossblade], an object with the one optional member
    [soundLayers], a list of [CrossbladeSoundLayer]; that interface has
    exactly the mandatory members [src : string] and [events : string[]],
    a flat list. *)
Theorem flag_schema_in_every_variant :
  Forall Spec.flag_schema variants.
Proof.
  unfold variants.
  repeat (apply Forall_cons; split); [| |apply Forall_nil_2].
  - exists [Member "soundLayers" true (TArray (TRef "CrossbladeSoundLayer"))],
      "CrossbladeSoundLayer",
      [TRecord TString (TUnion [TString; TArray TString])],
      [Member "src" false TString; Member "events" false (TArray TString)],
      (TArray TString).
    repeat split.
  - exists [Member "soundLayers" true (TArray (TRef "CrossbladeSoundLayer"))],
      "CrossbladeSoundLayer",
      [TRecord TString (TUnion [TString; TArray TString])],
      [Member "src" false TString; Member "events" false (TArray TString)],
      (TArray TString).
    repeat split.
Qed.

(** C4, as stated, fails: the [CrossbladeEvent] of the first declaration
    file has neither a key nor a custom flag. *)
Lemma event_attributes_fail_in_first_variant :
  V1.declarations ∈ variants /\
  ~ Spec.event_attributes V1.declarations /\
  ~ Forall Spec.event_attributes variants.
Proof.
  assert (H : ~ Spec.event_attributes V1.declarations).
  { intros (Hkey & _). cbn in Hkey. destruct Hkey as [m Hm]. discriminate Hm. }
  split; [|split].
  - unfold variants. apply elem_of_cons. by left.
  - exact H.
  - intros HF. apply H. unfold variants in HF.
    by apply Forall_cons in HF as [HF _].
Qed.

(** C4, amended: the [CrossbladeEvent] of the second declaration file has a
    mandatory [key] of type [CrossbladeEventKey], mandatory strings [label]
    and [description], and an optional boolean [isCustom]; the one of the
    first file has exactly the mandatory strings [label] and
    [description]. *)
Theorem event_attributes_by_variant :
  Spec.event_attributes V2.declarations /\
  (let ms := members_of "CrossbladeEvent" V2.declarations in
   find_member "key" ms = Some (Member "key" false (TRef "CrossbladeEventKey")) /\
   find_member "isCustom" ms = Some (Member "isCustom" true TBoolean)) /\
  member_names (members_of "CrossbladeEvent" V1.declarations)
    = ["label"; "description"] /\
  Forall
    (fun f =>
       let ms := members_of "CrossbladeEvent" f in
       find_member "label" ms = Some (Member "label" false TString) /\
       find_member "description" ms
         = Some (Member "description" false TString))
    variants.
Proof.
  split; [|split; [|split]].
  - unfold Spec.event_attributes. cbn. repeat split; eauto.
  - cbn. split; reflexivity.
  - reflexivity.
  - unfold variants. repeat constructor.
Qed.

(** C5, as stated, fails: in the second declaration file the [events] of a
    [SoundLayer] are a list of lists of strings. *)
Lemma sound_layer_nested_in_second_variant :
  V2.declarations ∈ variants /\
  find_member "events" (members_of "SoundLayer" V2.declarations)
    = Some (Member "events" true (TArray (TArray TString))) /\
  ~ Spec.flat_sound_layer V2.declarations /\
  ~ Forall Spec.flat_sound_layer variants.
Proof.
  assert (H : ~ Spec.flat_sound_layer V2.declarations).
  { intros (_ & t & Ht & Hd). cbn in Ht. injection Ht as <-. discriminate Hd. }
  split; [|split; [|split]].
  - unfold variants. rewrite !elem_of_cons. auto.
  - reflexivity.
  - exact H.
  - intros HF. apply H. unfold variants in HF.
    apply Forall_cons in HF as [_ HF]. by apply Forall_cons in HF as [HF _].
Qed.

(** C5, amended: in both declaration files a [SoundLayer] has exactly an
    optional string [src] and an optional list [events]; in the first file
    the events are a flat list of [CrossbladeEventKey], in the second a
    list of lists of strings. *)
Theorem sound_layer_by_variant :
  Forall
    (fun f =>
       let ms := members_of "SoundLayer" f in
       member_names ms = ["src"; "events"] /\
       find_member "src" ms = Some (Member "src" true TString) /\
       exists t, find_member "events" ms = Some (Member "events" true t) /\
                 1 <= array_depth t)
    variants /\
  Spec.flat_sound_layer V1.declarations /\
  find_member "events" (members_of "SoundLayer" V1.declarations)
    = Some (Member "events" true (TArray (TRef "CrossbladeEventKey"))) /\
  (exists t,
     find_member "events" (members_of "SoundLayer" V2.declarations)
       = Some (Member "events" true t) /\
     array_depth t = 2 /\ array_element t = TString).
Proof.
  split; [|split; [|split]].
  - unfold variants.
    repeat (apply Forall_cons; split); [| |apply Forall_nil_2]; cbn;
      (split; [reflexivity|split; [reflexivity|]]); eexists; split;
      try reflexivity; cbn; lia.
  - unfold Spec.flat_sound_layer. cbn. split; [reflexivity|].
    eexists; split; reflexivity.
  - reflexivity.
  - eexists; repeat split.
Qed.

(** ** Dev Mode *)

Import DevMode.

Lemma LogLevel_members_complete (l : LogLevel) : l ∈ LogLevel_members.
Proof. unfold LogLevel_members. destruct l; set_solver. Qed.

(** C6: when the debug-mode service is absent (the module is not installed,
    or it exposes no [api]), reading the debug value returns normally with
    the benign default, [false] for the boolean kind and [NONE] for the
    level kind; [NONE] has the value 0 and is the one least member of
    [LogLevel]. *)
Theorem debug_value_without_service
    (service : option DevModeModuleData) (packageName : string) :
  service_api service = None ->
  readPackageDebugValue service packageName (Some KBoolean)
    = Return (DBool false) /\
  readPackageDebugValue service packageName (Some KLevel)
    = Return (DLevel NONE) /\
  (forall k, exists v,
     readPackageDebugValue service packageName k = Return v) /\
  LogLevel_value NONE = 0%Z /\
  (forall l, (LogLevel_value NONE <= LogLevel_value l)%Z) /\
  (forall l, LogLevel_value l = 0%Z -> l = NONE).
Proof.
  intros Habsent. unfold readPackageDebugValue. rewrite Habsent.
  repeat split.
  - intros k. eauto.
  - intros l. destruct l; cbn; lia.
  - intros l. destruct l; cbn; intros H; (reflexivity || discriminate H).
Qed.

Lemma debug_value_without_service_witness :
  service_api (Some {| api := None |}) = None /\
  readPackageDebugValue (Some {| api := None |}) "crossblade" (Some KLevel)
    = Return (DLevel NONE) /\
  readPackageDebugValue None "crossblade" (Some KBoolean)
    = Return (DBool false).
Proof.
  split; [reflexivity|]. split.
  - apply (debug_value_without_service (Some {| api := None |}) "crossblade").
    reflexivity.
  - apply (debug_value_without_service None "crossblade"). reflexivity.
Defined.

(** A service that is present is asked: the default is not what the
    adapter returns in general. *)
Example debug_value_with_service :
  let dev := {| registerPackageDebugFlag := fun _ _ _ => true;
                getPackageDebugValue := fun _ _ => DLevel DEBUG |} in
  readPackageDebugValue (Some {| api := Some dev |}) "crossblade" (Some KLevel)
    = Return (DLevel DEBUG).
Proof. reflexivity. Qed.

(** ** Playback synchronisation *)

Section SyncFacts.

Import Sync.

Context {number : Type} (unknown : option (SoundState number)).

Implicit Types (u w : PlaylistSoundUpdateData number).
Implicit Types (st : SoundState number) (o : option (SoundState number)).
Implicit Types (m : gmap string (SoundState number)).

Lemma default_default {A} (x : A) (o : option A) :
  default (default x o) o = default x o.
Proof. by destruct o. Qed.

Lemma updateSound_idemp u st :
  updateSound u (updateSound u st) = updateSound u st.
Proof. unfold updateSound. cbn. by rewrite !default_default. Qed.

Lemma updateEntry_idemp u o :
  updateEntry unknown u (updateEntry unknown u o) = updateEntry unknown u o.
Proof.
  destruct o as [st|]; cbn.
  - by rewrite updateSound_idemp.
  - destruct unknown as [d|]; cbn; [|done]. by rewrite updateSound_idemp.
Qed.

(** Two updates of one sound in a row act as one update. *)
Lemma updateSound_twice u w st :
  updateSound w (updateSound u st) = updateSound (later_wins u w) st.
Proof.
  unfold updateSound, later_wins. cbn.
  by destruct (playing w), (pausedTime w).
Qed.

Lemma updateEntry_twice u w o :
  updateEntry unknown w (updateEntry unknown u o)
  = updateEntry unknown (later_wins u w) o.
Proof.
  destruct o as [st|]; cbn.
  - by rewrite updateSound_twice.
  - destruct unknown as [d|]; cbn; [|done]. by rewrite updateSound_twice.
Qed.

Lemma lookup_applySoundUpdate m u k :
  applySoundUpdate unknown m u !! k
  = if decide (_id u = k) then updateEntry unknown u (m !! k) else m !! k.
Proof.
  unfold applySoundUpdate. case_decide as Hk.
  - subst k. by rewrite lookup_partial_alter_eq.
  - by rewrite lookup_partial_alter_ne.
Qed.

(** What a list of updates does to one sound is what one update does, or
    nothing. *)
Lemma applySoundUpdates_net us k :
  exists net : option (PlaylistSoundUpdateData number),
    forall m,
      applySoundUpdates unknown us m !! k
      = match net with
        | Some u => updateEntry unknown u (m !! k)
        | None => m !! k
        end.
Proof.
  induction us as [|u us [net IH]].
  - by exists None.
  - destruct (decide (_id u = k)) as [Hk|Hk].
    + destruct net as [w|].
      * exists (Some (later_wins u w)). intros m.
        unfold applySoundUpdates in *. cbn. rewrite IH.
        rewrite lookup_applySoundUpdate, decide_True by done.
        apply updateEntry_twice.
      * exists (Some u). intros m.
        unfold applySoundUpdates in *. cbn. rewrite IH.
        by rewrite lookup_applySoundUpdate, decide_True.
    + exists net. intros m.
      unfold applySoundUpdates in *. cbn. rewrite !IH.
      by rewrite lookup_applySoundUpdate, decide_False.
Qed.

Lemma applySoundUpdates_idemp us m :
  applySoundUpdates unknown us (applySoundUpdates unknown us m)
  = applySoundUpdates unknown us m.
Proof.
  apply map_eq. intros k.
  destruct (applySoundUpdates_net us k) as [[u|] H]; rewrite !H; [|done].
  apply updateEntry_idemp.
Qed.

(** C7: applying a payload is idempotent: for every payload and every
    client state, applying the payload twice gives the state that applying
    it once gives. *)
Theorem applyUpdate_idempotent
    (p : PlaylistUpdateData number) (s : ClientState number) :
  applyUpdate unknown p (applyUpdate unknown p s) = applyUpdate unknown p s.
Proof.
  unfold applyUpdate. cbn.
  by rewrite default_default, applySoundUpdates_idemp.
Qed.

(** Spec 8, scenario: an update that gives both members fixes the local
    state of a known sound, whatever it was. *)
Lemma full_update_overrides id b t st (s : ClientState number) :
  client_sounds s !! id = Some st ->
  client_sounds
    (applyUpdate unknown
       {| playlist_playing := None;
          sounds := Some [ {| _id := id; playing := Some b;
                              pausedTime := Some t |} ] |} s) !! id
  = Some {| state_playing := b; state_pausedTime := t |}.
Proof.
  intros Hst. unfold applyUpdate, applySoundUpdates. cbn -[applySoundUpdate].
  rewrite lookup_applySoundUpdate, decide_True by done.
  by rewrite Hst.
Qed.

End SyncFacts.

(** ** The build script *)

Section GulpFacts.

Import Gulp.

Implicit Types (fs : FS) (p q : list string) (e : env).

(** *** Paths *)

Lemma linkDirectory_modules p :
  linkDirectory p "modules" = (p ++ ["Data"; "modules"; "crossblade"])%list.
Proof.
  transitivity (((p ++ ["Data"]) ++ ["modules"]) ++ ["crossblade"])%list;
    [reflexivity|]. by rewrite <- !app_assoc.
Qed.

Lemma resolve_parent p x : path_resolve (p ++ [x])%list [".."] = p.
Proof.
  transitivity (removelast (p ++ [x])); [reflexivity|]. apply removelast_last.
Qed.

Lemma resolve_dist p : path_resolve p [distDirectory] = (p ++ ["dist"])%list.
Proof. reflexivity. Qed.

Lemma resolve_module_json p :
  path_resolve p [sourceDirectory; "module.json"]
  = (p ++ ["src"; "module.json"])%list.
Proof.
  transitivity ((p ++ ["src"]) ++ ["module.json"])%list; [reflexivity|].
  by rewrite <- !app_assoc.
Qed.

Lemma prefixes_self p : p <> [] -> p ∈ prefixes p.
Proof.
  induction p as [|x p IH]; [done|]. intros _. cbn.
  destruct p as [|y p].
  - apply elem_of_cons. by left.
  - apply elem_of_cons. right. apply list_elem_of_fmap.
    exists (y :: p). split; [done|]. by apply IH.
Qed.

(** *** The file-system operations *)

Lemma lookup_dirs_of p q :
  dirs_of p !! q = if decide (q ∈ prefixes p) then Some Dir else None.
Proof.
  unfold dirs_of. case_decide as Hq.
  - destruct (list_to_map (map (fun q => (q, Dir)) (prefixes p)) !! q)
      as [n|] eqn:Hn.
    + apply elem_of_list_to_map_2 in Hn.
      apply list_elem_of_fmap in Hn as (r & [= -> ->] & _). done.
    + apply not_elem_of_list_to_map in Hn. exfalso. apply Hn.
      apply list_elem_of_fmap. exists (q, Dir). split; [done|].
      apply list_elem_of_fmap. by exists q.
  - apply not_elem_of_list_to_map. intros H. apply Hq.
    apply list_elem_of_fmap in H as ([r n] & -> & Hr).
    apply list_elem_of_fmap in Hr as (r' & [= -> ->] & Hr). done.
Qed.

Lemma union_absorb (fs fs2 : FS) :
  (forall k, is_Some (fs2 !! k) -> is_Some (fs !! k)) -> fs ∪ fs2 = fs.
Proof.
  intros H. apply map_eq. intros k. rewrite lookup_union.
  destruct (fs !! k) as [n|] eqn:Hk; [by destruct (fs2 !! k)|].
  destruct (fs2 !! k) as [n|] eqn:Hk2; [|done].
  destruct (H k) as [n' Hn']; [by eauto|]. congruence.
Qed.

Lemma lookup_ensured fs p q :
  q ∈ prefixes p -> is_Some ((fs ∪ dirs_of p) !! q).
Proof.
  intros Hq. rewrite lookup_union, lookup_dirs_of, decide_True by done.
  destruct (fs !! q); cbn; eauto.
Qed.

(** Running [ensureDir] and [symlink] where the link and the directories
    above it are in place changes nothing. *)
Lemma relink_stable fs target p :
  is_Some (lookup_node fs p) ->
  (forall q, q ∈ prefixes (removelast p) -> is_Some (fs !! q)) ->
  exec (ensureDir (removelast p) ;;; symlink target p) fs = fs.
Proof.
  intros [n Hn] Hdirs. unfold exec, bind, ensureDir.
  destruct (existsb _ _); [done|].
  rewrite union_absorb.
  - unfold symlink. by rewrite Hn.
  - intros k. rewrite lookup_dirs_of. case_decide; [auto|by intros [? ?]].
Qed.

Lemma insert_link fs fs1 p (n : node) :
  p <> [] -> fs ⊆ fs1 -> lookup_node fs1 p = None ->
  (forall q, q ∈ prefixes (removelast p) -> is_Some (fs1 !! q)) ->
  fs ⊆ (<[p := n]> fs1) /\
  is_Some (lookup_node (<[p := n]> fs1) p) /\
  (forall q, q ∈ prefixes (removelast p) ->
             is_Some ((<[p := n]> fs1) !! q)).
Proof.
  intros Hp Hsub Hnone Hdirs.
  destruct p as [|x p]; [done|]. cbn [lookup_node] in *.
  split; [|split].
  - etrans; [exact Hsub|]. by apply insert_subseteq.
  - rewrite lookup_insert_eq. eauto.
  - intros q Hq. destruct (decide (x :: p = q)) as [<-|Hne].
    + rewrite lookup_insert_eq. eauto.
    + rewrite lookup_insert_ne by done. auto.
Qed.

(** After [ensureDir] and [symlink] nothing is lost, and either nothing
    has changed, or the link and the directories above it are in place. *)
Lemma link_tail_state fs target p :
  p <> [] ->
  let fs' := exec (ensureDir (removelast p) ;;; symlink target p) fs in
  fs ⊆ fs' /\
  (fs' = fs \/
   (is_Some (lookup_node fs' p) /\
    forall q, q ∈ prefixes (removelast p) -> is_Some (fs' !! q))).
Proof.
  intros Hp. cbn zeta. unfold exec, bind, ensureDir.
  destruct (existsb _ _) eqn:Hex; cbn; [by auto|].
  set (fs1 := fs ∪ dirs_of (removelast p)).
  assert (Hsub : fs ⊆ fs1) by apply map_union_subseteq_l.
  assert (Hdirs : forall q, q ∈ prefixes (removelast p) -> is_Some (fs1 !! q))
    by (intros q Hq; by apply lookup_ensured).
  assert (Hpar : exists n, lookup_node fs1 (removelast p) = Some n /\
                           is_file (Some n) = false).
  { destruct (removelast p) as [|x r] eqn:Hrl; [by exists Dir|].
    assert (Hin : x :: r ∈ prefixes (x :: r)) by by apply prefixes_self.
    cbn [lookup_node]. unfold fs1.
    rewrite lookup_union, lookup_dirs_of, decide_True by done.
    destruct (fs !! (x :: r)) as [n|] eqn:Hn; cbn; [|by exists Dir].
    exists n. split; [done|].
    destruct (is_file (Some n)) eqn:Hf; [|done].
    assert (existsb (fun q => is_file (fs !! q)) (prefixes (x :: r)) = true);
      [|congruence].
    apply existsb_exists. exists (x :: r).
    split; [by apply list_elem_of_In|]. by rewrite Hn. }
  destruct Hpar as (n & Hn1 & Hn2).
  unfold symlink.
  destruct (lookup_node fs1 p) as [n'|] eqn:Hl; cbn.
  { split; [done|]. right. split; [|done]. rewrite Hl. eauto. }
  rewrite Hn1.
  destruct n as [c| |t]; [done| |]; cbn;
    destruct (insert_link fs fs1 p (Symlink target)) as (? & ? & ?); auto.
Qed.

Lemma resolves_lookup n fs p :
  resolves n fs p = true -> is_Some (lookup_node fs p).
Proof.
  destruct n; unfold resolves; destruct (lookup_node fs p); eauto; discriminate.
Qed.

(** *** getDataPath *)

Lemma getDataPath_state e fs : exec (getDataPath e) fs = fs.
Proof.
  unfold exec, getDataPath, bind, readJSONSync_foundryconfig, existsSync, throw, ret.
  destruct (foundryconfig e) as [config|err]; [|done].
  destruct (config_dataPath config) as [d|]; [|done].
  destruct (truthy (Some d)); [|done].
  by destruct (resolves 40 fs _).
Qed.

Lemma getDataPath_Return e fs p :
  outcome (getDataPath e) fs = Return p <->
  exists config dataPath,
    foundryconfig e = Return config /\
    config_dataPath config = Some dataPath /\
    dataPath <> "" /\
    p = path_resolve (cwd e) [dataPath] /\
    resolves 40 fs p = true.
Proof.
  unfold outcome, getDataPath, bind, readJSONSync_foundryconfig, existsSync,
    throw, ret.
  split.
  - destruct (foundryconfig e) as [config|err]; [|done].
    destruct (config_dataPath config) as [d|] eqn:Hd; [|done].
    cbn. destruct (String.eqb d "") eqn:Hempty; [done|]. cbn.
    destruct (resolves 40 fs (path_resolve (cwd e) [d])) eqn:Hex; [|done].
    cbn. intros [= <-]. exists config, d.
    apply String.eqb_neq in Hempty. repeat split; done.
  - intros (config & d & -> & Hd & Hne & -> & Hex).
    rewrite Hd. cbn. apply String.eqb_neq in Hne. rewrite Hne. cbn.
    by rewrite Hex.
Qed.

Lemma getDataPath_fixed e fs fs' p p' :
  outcome (getDataPath e) fs = Return p ->
  outcome (getDataPath e) fs' = Return p' -> p = p'.
Proof.
  intros (c & d & Hc & Hd & _ & -> & _)%getDataPath_Return
         (c' & d' & Hc' & Hd' & _ & -> & _)%getDataPath_Return.
  congruence.
Qed.

Lemma getDataPath_run e fs : getDataPath e fs = (outcome (getDataPath e) fs, fs).
Proof.
  rewrite <- (getDataPath_state e fs) at 3. unfold outcome, exec.
  by destruct (getDataPath e fs).
Qed.

(** *** link *)

Lemma resolve_dotdot p : path_resolve p [".."] = removelast p.
Proof. reflexivity. Qed.

(** [link] once the two checks have passed. *)
Lemma link_checked e fs dp :
  resolves 40 fs (path_resolve (cwd e) [sourceDirectory; "module.json"]) = true ->
  outcome (getDataPath e) fs = Return dp ->
  link e fs
  = (let L := linkDirectory dp "modules" in
     if argv_clean e then remove L
     else
       linked <- existsSync L ;;
       if negb linked then
         ensureDir (removelast L) ;;;
         symlink (path_resolve (cwd e) [distDirectory]) L
       else ret tt) fs.
Proof.
  intros Hmj Hdp. unfold link, bind at 1 2 3, existsSync at 1.
  rewrite Hmj. cbn [ret]. rewrite getDataPath_run, Hdp.
  by rewrite resolve_dotdot.
Qed.

(** Without the clean flag [link] changes nothing, or it is the run of
    [ensureDir] and [symlink] at the link directory. *)
Lemma link_cases e fs :
  argv_clean e = false ->
  exec (link e) fs = fs \/
  exists dp,
    outcome (getDataPath e) fs = Return dp /\
    exec (link e) fs
    = exec (ensureDir (removelast (linkDirectory dp "modules")) ;;;
            symlink (path_resolve (cwd e) [distDirectory])
                    (linkDirectory dp "modules")) fs.
Proof.
  intros Hclean.
  destruct (resolves 40 fs (path_resolve (cwd e) [sourceDirectory; "module.json"]))
    eqn:Hmj.
  - destruct (outcome (getDataPath e) fs) as [dp|err] eqn:Hdp.
    + pose proof (link_checked e fs dp Hmj Hdp) as Hl.
      rewrite Hclean in Hl. cbn zeta in Hl.
      unfold bind at 1, existsSync in Hl.
      destruct (resolves 40 fs (linkDirectory dp "modules")); cbn [negb] in Hl.
      * left. unfold exec. by rewrite Hl.
      * right. exists dp. split; [done|]. unfold exec. by rewrite Hl.
    + left. unfold exec, link, bind, existsSync. rewrite Hmj. cbn [ret].
      by rewrite getDataPath_run, Hdp.
  - left. unfold exec, link, bind, existsSync. by rewrite Hmj.
Qed.

Lemma linkDirectory_nonempty dp : linkDirectory dp "modules" <> [].
Proof. rewrite linkDirectory_modules. by destruct dp. Qed.

Lemma link_twice e fs :
  argv_clean e = false ->
  exec (link e) (exec (link e) fs) = exec (link e) fs.
Proof.
  intros Hclean.
  destruct (link_cases e fs Hclean) as [H|(dp & Hdp & H)]; [by rewrite !H|].
  destruct (link_tail_state fs (path_resolve (cwd e) [distDirectory])
              (linkDirectory dp "modules") (linkDirectory_nonempty dp))
    as [_ [Hsame|[Hlink Hdirs]]]; rewrite <- H in *.
  - by rewrite !Hsame.
  - destruct (link_cases e (exec (link e) fs) Hclean) as [H'|(dp' & Hdp' & H')];
      [done|].
    rewrite H'. rewrite <- (getDataPath_fixed _ _ _ _ _ Hdp Hdp').
    by apply relink_stable.
Qed.

Lemma link_keeps e fs : argv_clean e = false -> fs ⊆ exec (link e) fs.
Proof.
  intros Hclean.
  destruct (link_cases e fs Hclean) as [H|(dp & Hdp & H)]; rewrite H; [done|].
  by apply link_tail_state, linkDirectory_nonempty.
Qed.

Lemma link_linked e fs dp :
  outcome (getDataPath e) fs = Return dp ->
  argv_clean e = false ->
  resolves 40 fs (linkDirectory dp "modules") = true ->
  exec (link e) fs = fs.
Proof.
  intros Hdp Hclean Hlinked.
  destruct (resolves 40 fs (path_resolve (cwd e) [sourceDirectory; "module.json"]))
    eqn:Hmj.
  - pose proof (link_checked e fs dp Hmj Hdp) as Hl.
    rewrite Hclean in Hl. cbn zeta in Hl.
    unfold bind at 1, existsSync in Hl. rewrite Hlinked in Hl.
    unfold exec. by rewrite Hl.
  - unfold exec, link, bind, existsSync. by rewrite Hmj.
Qed.

Lemma lookup_removed p fs k :
  p `prefix_of` k -> exec (remove p) fs !! k = None.
Proof.
  intros Hk. unfold exec, remove. cbn.
  apply map_lookup_filter_None. right. intros n _ Hn. by apply Hn.
Qed.

(** *** copyFiles *)


Lemma copyEach_missing e dir file rest fs :
  resolves 40 fs (path_resolve (cwd e) [dir +:+ "/" +:+ file]) = false ->
  copyEach e dir (file :: rest) fs = copyEach e dir rest fs.
Proof.
  intros Hmissing. cbn [copyEach]. unfold bind at 1 2, existsSync.
  by rewrite Hmissing.
Qed.

Lemma copyEach_present e dir file rest fs :
  resolves 40 fs (path_resolve (cwd e) [dir +:+ "/" +:+ file]) = true ->
  copyEach e dir (file :: rest) fs
  = (copy (path_resolve (cwd e) [dir +:+ "/" +:+ file])
          (path_resolve (cwd e) [distDirectory +:+ "/" +:+ file]) ;;;
     copyEach e dir rest) fs.
Proof.
  intros Hpresent. cbn [copyEach]. unfold bind at 1, existsSync.
  by rewrite Hpresent.
Qed.



(** What [copy] leaves at the destination is what is at the source. *)
Lemma lookup_graft s d fs r :
  graft s d fs !! (d ++ r)%list = fs !! (s ++ r)%list.
Proof.
  unfold graft. revert r.
  apply (map_fold_weak_ind
           (fun acc (m : FS) => forall r, acc !! (d ++ r)%list = m !! (s ++ r)%list)).
  - intros r. by rewrite !lookup_empty.
  - intros k n m acc Hk IH r. case_decide as Hpre.
    + destruct Hpre as [r0 ->]. rewrite drop_app_length.
      destruct (decide (r0 = r)) as [->|Hne].
      * by rewrite !lookup_insert_eq.
      * rewrite !lookup_insert_ne; [apply IH| |]; intros Heq;
          by apply app_inv_head in Heq.
    + rewrite lookup_insert_ne; [apply IH|].
      intros ->. apply Hpre. by exists r.
Qed.

Lemma copy_arrives s d fs fs' n :
  s <> [] -> d <> [] ->
  fs !! s = Some n ->
  copy s d fs = (Return tt, fs') ->
  fs' !! d = Some n.
Proof.
  intros Hs Hd Hn. unfold copy.
  assert (Hl : lookup_node fs s = Some n) by by destruct s.
  rewrite Hl.
  assert (Hgo : (_ <- ensureDir (removelast d) ;;
                 fun fs1 => (Return tt, graft s d fs ∪ fs1)) fs
                = (Return tt, fs') -> fs' !! d = Some n).
  { unfold bind, ensureDir. destruct (existsb _ _); [done|].
    intros [= <-]. apply lookup_union_Some_l.
    pose proof (lookup_graft s d fs []) as Hroot.
    rewrite !app_nil_r in Hroot. by rewrite Hroot. }
  destruct (lookup_node fs d) as [n'|]; [|done].
  by destruct (Bool.eqb (is_dir n) (is_dir n')).
Qed.

(** *** The claims about the build script *)

(** C8: [getDataPath] reads [foundryconfig.json].  With the file read, it
    throws [Error('No User Data path defined in foundryconfig.json')] when
    the configuration defines no [dataPath] ([config?.dataPath] is
    undefined or empty), throws [Error('User Data path invalid, no Data
    directory found')] when the resolved [dataPath] does not exist, and
    otherwise returns the resolved [dataPath]; it never changes the file
    system.  [link], once it has found [module.json], works on
    [<dataPath>/Data/modules/crossblade]: it removes that path under
    [--clean], and otherwise links it to [dist] unless it exists. *)
Theorem getDataPath_reads_foundryconfig e fs config :
  foundryconfig e = Return config ->
  (truthy (config_dataPath config) = false ->
   getDataPath e fs
   = (Throw (Error "No User Data path defined in foundryconfig.json"), fs)) /\
  (forall dataPath,
     config_dataPath config = Some dataPath -> dataPath <> "" ->
     let resolved := path_resolve (cwd e) [dataPath] in
     (outcome (existsSync resolved) fs = Return false ->
      getDataPath e fs
      = (Throw (Error "User Data path invalid, no Data directory found"), fs)) /\
     (outcome (existsSync resolved) fs = Return true ->
      getDataPath e fs = (Return resolved, fs) /\
      (outcome (existsSync (cwd e ++ ["src"; "module.json"])%list) fs
       = Return true ->
       let L := (resolved ++ ["Data"; "modules"; "crossblade"])%list in
       link e fs
       = (if argv_clean e then remove L
          else
            linked <- existsSync L ;;
            if negb linked then
              ensureDir (resolved ++ ["Data"; "modules"])%list ;;;
              symlink (cwd e ++ ["dist"])%list L
            else ret tt) fs))).
Proof.
  intros Hconfig. split.
  - intros Hfalsy. unfold getDataPath, bind, readJSONSync_foundryconfig.
    rewrite Hconfig. destruct (config_dataPath config) as [d|]; [|done].
    by rewrite Hfalsy.
  - intros d Hd Hne resolved. apply String.eqb_neq in Hne.
    assert (Hrun : getDataPath e fs
                   = (if resolves 40 fs resolved then Return resolved
                      else Throw (Error "User Data path invalid, no Data directory found"),
                      fs)).
    { unfold getDataPath, bind, readJSONSync_foundryconfig, existsSync.
      rewrite Hconfig, Hd. cbn. rewrite Hne. cbn. fold resolved.
      by destruct (resolves 40 fs resolved). }
    split.
    + intros [= Hex]. by rewrite Hrun, Hex.
    + intros [= Hex]. rewrite Hrun, Hex. split; [done|].
      intros [= Hmj]. rewrite <- resolve_module_json in Hmj.
      rewrite (link_checked e fs resolved Hmj).
      * rewrite linkDirectory_modules. cbn zeta.
        replace (removelast (resolved ++ ["Data"; "modules"; "crossblade"]))
          with (resolved ++ ["Data"; "modules"])%list; [done|].
        change (resolved ++ ["Data"; "modules"; "crossblade"])%list
          with (resolved ++ ["Data"; "modules"] ++ ["crossblade"])%list.
        by rewrite app_assoc, removelast_last.
      * unfold outcome. by rewrite Hrun, Hex.
Qed.

Lemma getDataPath_reads_foundryconfig_witness :
  foundryconfig Scenario.project = Return (JObject (Some "/data")) /\
  getDataPath Scenario.project Scenario.disk = (Return ["data"], Scenario.disk) /\
  getDataPath Scenario.project_unconfigured Scenario.disk
  = (Throw (Error "No User Data path defined in foundryconfig.json"),
     Scenario.disk).
Proof.
  split; [reflexivity|]. split.
  - apply (proj2 (getDataPath_reads_foundryconfig Scenario.project
                    Scenario.disk (JObject (Some "/data")) eq_refl)
             "/data" eq_refl).
    + discriminate.
    + vm_compute. reflexivity.
  - apply (proj1 (getDataPath_reads_foundryconfig Scenario.project_unconfigured
                    Scenario.disk (JObject None) eq_refl)).
    reflexivity.
Defined.



(** On the scenario disk [assets], [fonts], [packs], [templates] and
    [CHANGELOG.md] are missing; the run returns normally and the three
    files that are there arrive in [dist]. *)
Example copyFiles_on_disk :
  let after := exec (copyFiles Scenario.project) Scenario.disk in
  outcome (copyFiles Scenario.project) Scenario.disk = Return tt /\
  after !! ["w"; "dist"; "lang"; "en.json"] = Some (File "en") /\
  after !! ["w"; "dist"; "module.json"] = Some (File "{}") /\
  after !! ["w"; "dist"; "README.md"] = Some (File "readme") /\
  after !! ["w"; "dist"; "assets"] = None /\
  after !! ["w"; "dist"; "CHANGELOG.md"] = None.
Proof. vm_compute. repeat split. Qed.

(** C10: without the clean flag [link] is idempotent on the file system:
    two runs leave the state one run leaves; a run removes and alters
    nothing; and when the link directory exists a run changes nothing.
    With the clean flag, once [module.json] and the data path are found,
    [link] is [fs.remove] of the link directory, after which nothing is at
    or below it. *)
Theorem link_idempotent e fs :
  (argv_clean e = false ->
   exec (link e) (exec (link e) fs) = exec (link e) fs /\
   fs ⊆ exec (link e) fs /\
   (forall dp,
      outcome (getDataPath e) fs = Return dp ->
      outcome (existsSync (dp ++ ["Data"; "modules"; "crossblade"])%list) fs
      = Return true ->
      exec (link e) fs = fs)) /\
  (argv_clean e = true ->
   forall dp,
     outcome (existsSync (cwd e ++ ["src"; "module.json"])%list) fs = Return true ->
     outcome (getDataPath e) fs = Return dp ->
     let L := (dp ++ ["Data"; "modules"; "crossblade"])%list in
     link e fs = remove L fs /\
     forall k, L `prefix_of` k -> exec (link e) fs !! k = None).
Proof.
  split.
  - intros Hclean. split; [by apply link_twice|]. split; [by apply link_keeps|].
    intros dp Hdp [= Hlinked]. apply (link_linked e fs dp); [done..|].
    by rewrite linkDirectory_modules.
  - intros Hclean dp [= Hmj] Hdp L.
    rewrite <- resolve_module_json in Hmj.
    assert (Hl : link e fs = remove L fs).
    { rewrite (link_checked e fs dp Hmj Hdp), Hclean. cbn zeta.
      by rewrite linkDirectory_modules. }
    split; [done|]. intros k Hk. unfold exec at 1. rewrite Hl.
    by apply lookup_removed.
Qed.

Lemma link_idempotent_witness :
  argv_clean Scenario.project = false /\
  exec (link Scenario.project) (exec (link Scenario.project) Scenario.disk)
  = exec (link Scenario.project) Scenario.disk /\
  argv_clean Scenario.project_clean = true /\
  link Scenario.project_clean Scenario.disk
  = remove ["data"; "Data"; "modules"; "crossblade"] Scenario.disk.
Proof.
  split; [reflexivity|]. split; [|split; [reflexivity|]].
  - apply (proj1 (link_idempotent Scenario.project Scenario.disk)).
    reflexivity.
  - apply (proj2 (link_idempotent Scenario.project_clean Scenario.disk)
             eq_refl ["data"]).
    + vm_compute. reflexivity.
    + vm_compute. reflexivity.
Defined.

(** The first run on the scenario disk creates the link and the
    directories above it; [dist] is not built, so the link dangles, the
    second run does not see it and fails in [symlink] with the disk as it
    is.  With [dist] built the second run sees the link and returns. *)
Example link_on_disk :
  let once := exec (link Scenario.project) Scenario.disk in
  outcome (link Scenario.project) Scenario.disk = Return tt /\
  once !! ["data"; "Data"; "modules"; "crossblade"]
    = Some (Symlink ["w"; "dist"]) /\
  once !! ["data"; "Data"; "modules"] = Some Dir /\
  outcome (link Scenario.project) once = Throw (SystemError EEXIST) /\
  outcome (link Scenario.project)
    (exec (link Scenario.project) Scenario.disk_built) = Return tt.
Proof. vm_compute. repeat split. Qed.

End GulpFacts.

(** ** More of the build script: clean, and what copyFiles and link leave *)

Section MoreGulpFacts.

Import Gulp.

Implicit Types (fs : FS) (p q k : list string) (e : env).

(** *** Following links on a larger disk *)

Lemma lookup_node_weaken fs fs' p n :
  fs ⊆ fs' -> lookup_node fs p = Some n -> lookup_node fs' p = Some n.
Proof.
  intros Hsub. destruct p as [|x p]; [done|]. cbn.
  intros H. by eapply lookup_weaken.
Qed.

Lemma resolves_weaken n fs fs' p :
  fs ⊆ fs' -> resolves n fs p = true -> resolves n fs' p = true.
Proof.
  intros Hsub. revert p. induction n as [|n IH]; intros p; unfold resolves;
    fold resolves; destruct (lookup_node fs p) as [x|] eqn:Hx; try done;
    rewrite (lookup_node_weaken fs fs' p x Hsub Hx); destruct x; auto.
Qed.

(** *** remove *)

Lemma lookup_remove p fs k :
  exec (remove p) fs !! k = if decide (p `prefix_of` k) then None else fs !! k.
Proof.
  unfold exec, remove. cbn. case_decide as Hk.
  - apply map_lookup_filter_None. right. intros n _ Hn. by apply Hn.
  - destruct (fs !! k) as [n|] eqn:Hn.
    + by apply map_lookup_filter_Some.
    + apply map_lookup_filter_None. by left.
Qed.

Lemma remove_subseteq p fs : exec (remove p) fs ⊆ fs.
Proof. apply map_filter_subseteq. Qed.

Lemma removeEach_run e files fs :
  removeEach e files fs = (Return tt, exec (removeEach e files) fs).
Proof.
  revert fs. induction files as [|f rest IH]; intros fs; [done|].
  unfold exec. cbn [removeEach]. unfold bind, remove. cbn.
  rewrite IH. done.
Qed.

Lemma lookup_removeEach e files fs k :
  exec (removeEach e files) fs !! k
  = if decide (Exists
                 (fun f => path_resolve (cwd e) [distDirectory +:+ "/" +:+ f]
                           `prefix_of` k) files)
    then None else fs !! k.
Proof.
  revert fs. induction files as [|f rest IH]; intros fs.
  - cbn. rewrite decide_False; [done|]. by intros H%Exists_nil.
  - unfold exec in *. cbn [removeEach]. unfold bind at 1.
    change (remove ?p fs) with (Return tt, exec (remove p) fs).
    cbn beta iota. rewrite IH, lookup_remove.
    repeat case_decide; try done.
    + exfalso. rewrite Exists_cons in *. tauto.
    + exfalso. rewrite Exists_cons in *. tauto.
    + exfalso. rewrite Exists_cons in *. tauto.
Qed.


(** *** clean *)

Lemma clean_dist_paths e found :
  Forall
    (fun f => path_resolve (cwd e) [distDirectory +:+ "/" +:+ f]
              = (cwd e ++ ["dist"; f])%list)
    (clean_files found).
Proof.
  destruct found; repeat constructor;
    (etransitivity; [|symmetry; apply (app_assoc (cwd e) ["dist"] [_])]);
    reflexivity.
Qed.

Lemma clean_styles_path e :
  path_resolve (cwd e)
    [stylesDirectory +:+ "/" +:+ name +:+ "." +:+ stylesExtension]
  = (cwd e ++ ["src"; "styles"; "crossblade.css"])%list.
Proof.
  transitivity (((cwd e ++ ["src"]) ++ ["styles"]) ++ ["crossblade.css"])%list;
    [reflexivity|]. by rewrite <- !app_assoc.
Qed.

Lemma clean_run e fs :
  clean e fs
  = (Return tt,
     exec (removeEach e
             (clean_files
                (resolves 40 fs (cwd e ++ ["src"; "styles"; "crossblade.css"]))))
       fs).
Proof.
  unfold clean, bind, existsSync. rewrite clean_styles_path.
  apply removeEach_run.
Qed.

Lemma lookup_clean e fs k :
  let found := resolves 40 fs (cwd e ++ ["src"; "styles"; "crossblade.css"]) in
  (forall f, f ∈ clean_files found ->
     (cwd e ++ ["dist"; f])%list `prefix_of` k ->
     exec (clean e) fs !! k = None) /\
  ((forall f, f ∈ clean_files found ->
      ~ (cwd e ++ ["dist"; f])%list `prefix_of` k) ->
   exec (clean e) fs !! k = fs !! k).
Proof.
  cbn zeta. unfold exec at 1 2. rewrite clean_run. cbn [snd].
  rewrite lookup_removeEach.
  pose proof (clean_dist_paths e
    (resolves 40 fs (cwd e ++ ["src"; "styles"; "crossblade.css"]))) as Hpaths.
  rewrite Forall_forall in Hpaths.
  split.
  - intros f Hf Hk. rewrite decide_True; [done|].
    apply Exists_exists. exists f. split; [done|]. by rewrite Hpaths.
  - intros Hk. rewrite decide_False; [done|].
    intros (f & Hf & Hpre)%Exists_exists. apply (Hk f Hf).
    by rewrite <- Hpaths.
Qed.

(** *** copy *)

Lemma prefixes_prefix p q : q ∈ prefixes p -> q `prefix_of` p.
Proof.
  revert q. induction p as [|x p IH]; intros q; cbn.
  - by intros ?%elem_of_nil.
  - intros [->|H]%elem_of_cons.
    + by exists p.
    + apply list_elem_of_fmap in H as (r & -> & Hr).
      by apply prefix_cons, IH.
Qed.

Lemma lookup_graft_outside s d fs k :
  ~ d `prefix_of` k -> graft s d fs !! k = None.
Proof.
  intros Hk. unfold graft.
  apply (map_fold_weak_ind (fun acc (m : FS) => acc !! k = None)).
  - apply lookup_empty.
  - intros i n m acc _ IH. case_decide; [|done].
    rewrite lookup_insert_ne; [done|]. intros <-. apply Hk.
    by apply prefix_app_r.
Qed.

Lemma copy_cases s d fs :
  (is_Some (lookup_node fs s) /\
   copy s d fs
   = (Return tt, graft s d fs ∪ (fs ∪ dirs_of (removelast d)))) \/
  (exists err, copy s d fs = (Throw err, fs)).
Proof.
  unfold copy. destruct (lookup_node fs s) as [n|]; [|right; eauto].
  assert (Hgo :
    (is_Some (Some n) /\
     (_ <- ensureDir (removelast d) ;;
      fun fs' => (Return tt, graft s d fs ∪ fs')) fs
     = (Return tt, graft s d fs ∪ (fs ∪ dirs_of (removelast d)))) \/
    (exists err,
       (_ <- ensureDir (removelast d) ;;
        fun fs' => (Return tt, graft s d fs ∪ fs')) fs = (Throw err, fs))).
  { unfold bind, ensureDir. destruct (existsb _ _); [right|left]; eauto. }
  destruct (lookup_node fs d) as [n'|]; [|done].
  destruct (Bool.eqb (is_dir n) (is_dir n')); [done|]. right. eauto.
Qed.

Lemma copy_keeps s d fs k n :
  fs !! k = Some n -> ~ d `prefix_of` k ->
  exec (copy s d) fs !! k = Some n.
Proof.
  intros Hn Hk. unfold exec.
  destruct (copy_cases s d fs) as [[_ ->]|[err ->]]; [|done]. cbn.
  rewrite lookup_union_r by by apply lookup_graft_outside.
  by apply lookup_union_Some_l.
Qed.

Lemma copy_never_deletes s d fs k :
  is_Some (fs !! k) -> is_Some (exec (copy s d) fs !! k).
Proof.
  intros [n Hn]. unfold exec.
  destruct (copy_cases s d fs) as [[_ ->]|[err ->]]; [|by eauto]. cbn.
  rewrite lookup_union.
  destruct (graft s d fs !! k) as [x|]; cbn.
  - destruct ((fs ∪ dirs_of (removelast d)) !! k); cbn; eauto.
  - rewrite (lookup_union_Some_l _ _ _ _ Hn). cbn. eauto.
Qed.

Lemma copy_none s d fs k :
  fs !! k = None -> ~ d `prefix_of` k -> ~ k `prefix_of` removelast d ->
  exec (copy s d) fs !! k = None.
Proof.
  intros Hn Hk Hpre. unfold exec.
  destruct (copy_cases s d fs) as [[_ ->]|[err ->]]; [|done]. cbn.
  rewrite lookup_union_r by by apply lookup_graft_outside.
  rewrite lookup_union_r by done. rewrite lookup_dirs_of.
  rewrite decide_False; [done|]. by intros ?%prefixes_prefix.
Qed.

Lemma copy_delivers s d fs fs' r x :
  copy s d fs = (Return tt, fs') ->
  fs !! (s ++ r)%list = Some x -> fs' !! (d ++ r)%list = Some x.
Proof.
  intros Hrun Hx.
  destruct (copy_cases s d fs) as [[_ H]|[err H]]; rewrite H in Hrun;
    [|done].
  injection Hrun as <-. apply lookup_union_Some_l. by rewrite lookup_graft.
Qed.

(** *** The copy loop *)

Lemma copyEach_invariant (P : FS -> Prop) e dir files fs :
  P fs ->
  (forall g fs0,
     g ∈ files -> P fs0 ->
     resolves 40 fs0 (path_resolve (cwd e) [dir +:+ "/" +:+ g]) = true ->
     P (exec (copy (path_resolve (cwd e) [dir +:+ "/" +:+ g])
                   (path_resolve (cwd e) [distDirectory +:+ "/" +:+ g])) fs0)) ->
  P (exec (copyEach e dir files) fs).
Proof.
  revert fs. induction files as [|g rest IH]; intros fs HP Hstep; [done|].
  unfold exec.
  destruct (resolves 40 fs (path_resolve (cwd e) [dir +:+ "/" +:+ g]))
    eqn:Hfound.
  - rewrite copyEach_present by done. unfold bind.
    pose proof (Hstep g fs ltac:(by apply elem_of_cons; left) HP Hfound) as H1.
    unfold exec in H1.
    destruct (copy _ _ fs) as [[[]|err] fs1]; cbn in *; [|done].
    apply IH; [done|]. intros g' fs0 Hg'. apply Hstep.
    by apply elem_of_cons; right.
  - rewrite copyEach_missing by done. apply IH; [done|].
    intros g' fs0 Hg'. apply Hstep. by apply elem_of_cons; right.
Qed.

Lemma copyEach_keeps e dir files fs k n :
  (forall g, g ∈ files ->
     ~ path_resolve (cwd e) [distDirectory +:+ "/" +:+ g] `prefix_of` k) ->
  fs !! k = Some n ->
  exec (copyEach e dir files) fs !! k = Some n.
Proof.
  intros Hout Hn.
  apply (copyEach_invariant (fun fs0 => fs0 !! k = Some n)); [done|].
  intros g fs0 Hg H0 _. apply copy_keeps; auto.
Qed.

Lemma copyEach_never_deletes e dir files fs k :
  is_Some (fs !! k) -> is_Some (exec (copyEach e dir files) fs !! k).
Proof.
  intros Hn.
  apply (copyEach_invariant (fun fs0 => is_Some (fs0 !! k))); [done|].
  intros g fs0 _ H0 _. by apply copy_never_deletes.
Qed.

Lemma copy_none_pair s d fs k src :
  src <> [] ->
  fs !! k = None -> fs !! src = None ->
  (d `prefix_of` k -> s = src) ->
  ~ k `prefix_of` removelast d ->
  ~ d `prefix_of` src -> ~ src `prefix_of` removelast d ->
  resolves 40 fs s = true ->
  exec (copy s d) fs !! k = None /\ exec (copy s d) fs !! src = None.
Proof.
  intros Hsrc Hk Hs Hsame Hk1 Hs1 Hs2 Hfound.
  destruct (decide (d `prefix_of` k)) as [Hpre|Hpre].
  - rewrite (Hsame Hpre) in Hfound.
    apply resolves_lookup in Hfound as [x Hx].
    destruct src; [done|]. cbn in Hx. congruence.
  - split; by apply copy_none.
Qed.

Lemma resolves_node fuel fs p n :
  lookup_node fs p = Some n -> (forall t, n <> Symlink t) ->
  resolves fuel fs p = true.
Proof.
  intros Hn Hlink. destruct fuel; cbn [resolves]; unfold resolves; rewrite Hn;
    (destruct n as [c| |t]; [done..|]; by destruct (Hlink t)).
Qed.

Lemma resolves_link fuel fs p t :
  lookup_node fs p = Some (Symlink t) ->
  resolves (S fuel) fs p = resolves fuel fs t.
Proof. intros Hp. change (resolves (S fuel) fs p) with
  (match lookup_node fs p with
   | None => false
   | Some (Symlink t) => resolves fuel fs t
   | Some _ => true
   end). by rewrite Hp. Qed.

Lemma resolves_absent fuel fs p :
  lookup_node fs p = None -> resolves fuel fs p = false.
Proof. intros Hp. destruct fuel; unfold resolves; by rewrite Hp. Qed.

Lemma prefix_name (base : list string) g f r :
  (base ++ [g])%list `prefix_of` (base ++ f :: r)%list -> g = f.
Proof.
  intros H%prefix_app_inv. by apply prefix_cons_inv_1 in H.
Qed.

Lemma copyEach_delivers e dir files (base sbase : list string) fs fs' f n :
  NoDup files ->
  (forall g, g ∈ files ->
     path_resolve (cwd e) [distDirectory +:+ "/" +:+ g] = (base ++ [g])%list /\
     path_resolve (cwd e) [dir +:+ "/" +:+ g] = (sbase ++ [g])%list /\
     forall r, ~ (base ++ [g])%list `prefix_of` (sbase ++ f :: r)%list) ->
  copyEach e dir files fs = (Return tt, fs') ->
  f ∈ files ->
  fs !! (sbase ++ [f])%list = Some n -> (forall t, n <> Symlink t) ->
  forall r x,
    fs !! (sbase ++ f :: r)%list = Some x ->
    fs' !! (base ++ f :: r)%list = Some x.
Proof.
  intros Hnodup Hfiles Hrun Hf Hn Hlink r x Hx.
  revert fs Hrun Hn Hx.
  induction files as [|g rest IH]; intros fs Hrun Hn Hx;
    [by apply elem_of_nil in Hf|].
  apply NoDup_cons in Hnodup as [Hg Hnodup].
  destruct (Hfiles g ltac:(by apply elem_of_cons; left)) as (HD & HS & Hout).
  assert (Hrest : forall g', g' ∈ rest ->
            path_resolve (cwd e) [distDirectory +:+ "/" +:+ g'] = (base ++ [g'])%list /\
            path_resolve (cwd e) [dir +:+ "/" +:+ g'] = (sbase ++ [g'])%list /\
            forall r, ~ (base ++ [g'])%list `prefix_of` (sbase ++ f :: r)%list).
  { intros g' Hg'. apply Hfiles. by apply elem_of_cons; right. }
  destruct (decide (g = f)) as [->|Hne].
  - assert (Hfound : resolves 40 fs (path_resolve (cwd e) [dir +:+ "/" +:+ f])
                     = true).
    { rewrite HS. apply (resolves_node 40 fs _ n); [|done].
      by destruct (sbase ++ [f])%list eqn:E; [destruct sbase|]. }
    rewrite copyEach_present in Hrun by done. unfold bind in Hrun.
    destruct (copy _ _ fs) as [[[]|err] fs1] eqn:Hcopy; [|done].
    assert (H1 : fs1 !! (base ++ f :: r)%list = Some x).
    { rewrite HD, HS in Hcopy.
      pose proof (copy_delivers _ _ _ _ r x Hcopy) as Hd.
      rewrite <- !app_assoc in Hd. by apply Hd. }
    pose proof (copyEach_keeps e dir rest fs1 (base ++ f :: r)%list x) as Hkeep.
    unfold exec in Hkeep. rewrite Hrun in Hkeep. apply Hkeep; [|done].
    intros g' Hg'. destruct (Hrest g' Hg') as (-> & _ & _).
    intros Hpre%prefix_name. by subst.
  - assert (Hf' : f ∈ rest).
    { apply elem_of_cons in Hf as [?|?]; [by subst|done]. }
    assert (Hstep : exists fs1,
              copyEach e dir rest fs1 = (Return tt, fs') /\
              fs1 !! (sbase ++ [f])%list = Some n /\
              fs1 !! (sbase ++ f :: r)%list = Some x).
    { destruct (resolves 40 fs (path_resolve (cwd e) [dir +:+ "/" +:+ g]))
        eqn:Hfound.
      - rewrite copyEach_present in Hrun by done. unfold bind in Hrun.
        destruct (copy _ _ fs) as [[[]|err] fs1] eqn:Hcopy; [|done].
        exists fs1. split; [done|].
        assert (Hfs1 : fs1 = exec (copy (path_resolve (cwd e) [dir +:+ "/" +:+ g])
                 (path_resolve (cwd e) [distDirectory +:+ "/" +:+ g])) fs)
          by (unfold exec; by rewrite Hcopy).
        rewrite Hfs1, HD. split; apply copy_keeps; auto.
      - rewrite copyEach_missing in Hrun by done. by exists fs. }
    destruct Hstep as (fs1 & Hrun1 & Hn1 & Hx1).
    by apply (IH Hnodup Hrest Hf' fs1).
Qed.

(** *** copyFiles as a whole *)

Ltac unlisted H :=
  unfold staticFiles, projectFiles in H;
  repeat (apply elem_of_cons in H as [H|H]; [discriminate H|]);
  by apply elem_of_nil in H.

Ltac listed H :=
  unfold staticFiles, projectFiles in H;
  repeat (apply elem_of_cons in H as [->|H]);
  [..|by apply elem_of_nil in H].

Lemma static_paths e g :
  g ∈ staticFiles ->
  path_resolve (cwd e) [distDirectory +:+ "/" +:+ g]
    = ((cwd e ++ ["dist"]) ++ [g])%list /\
  path_resolve (cwd e) [sourceDirectory +:+ "/" +:+ g]
    = ((cwd e ++ ["src"]) ++ [g])%list.
Proof. intros Hg. listed Hg; split; reflexivity. Qed.

Lemma project_paths e g :
  g ∈ projectFiles ->
  path_resolve (cwd e) [distDirectory +:+ "/" +:+ g]
    = ((cwd e ++ ["dist"]) ++ [g])%list /\
  path_resolve (cwd e) [projectDirectory +:+ "/" +:+ g] = (cwd e ++ [g])%list.
Proof. intros Hg. listed Hg; split; reflexivity. Qed.

Lemma static_not_project g : g ∈ staticFiles -> g ∈ projectFiles -> False.
Proof. intros Hs Hp. listed Hs; unlisted Hp. Qed.

Lemma project_not_dist g : g ∈ projectFiles -> g <> "dist".
Proof. intros Hp. listed Hp; discriminate. Qed.

Lemma copyFiles_invariant (P : FS -> Prop) e fs :
  P fs ->
  (forall g fs0,
     g ∈ staticFiles -> P fs0 ->
     resolves 40 fs0 ((cwd e ++ ["src"]) ++ [g])%list = true ->
     P (exec (copy ((cwd e ++ ["src"]) ++ [g])%list
                   ((cwd e ++ ["dist"]) ++ [g])%list) fs0)) ->
  (forall g fs0,
     g ∈ projectFiles -> P fs0 ->
     resolves 40 fs0 (cwd e ++ [g])%list = true ->
     P (exec (copy (cwd e ++ [g])%list
                   ((cwd e ++ ["dist"]) ++ [g])%list) fs0)) ->
  P (exec (copyFiles e) fs).
Proof.
  intros HP Hstatic Hproject.
  assert (H1 : P (exec (copyEach e sourceDirectory staticFiles) fs)).
  { apply copyEach_invariant; [done|]. intros g fs0 Hg H0.
    destruct (static_paths e g Hg) as [-> ->]. by apply Hstatic. }
  unfold exec, copyFiles, bind in *.
  destruct (copyEach e sourceDirectory staticFiles fs) as [[[]|err] fs1];
    [|done].
  apply (copyEach_invariant P e projectDirectory projectFiles fs1); [done|].
  intros g fs0 Hg H0. destruct (project_paths e g Hg) as [-> ->].
  by apply Hproject.
Qed.



Lemma not_dist_in_src (c : list string) g f r :
  ~ ((c ++ ["dist"]) ++ [g])%list `prefix_of` ((c ++ ["src"]) ++ f :: r)%list.
Proof.
  rewrite <- !app_assoc. intros H%prefix_app_inv.
  by apply prefix_cons_inv_1 in H.
Qed.

Lemma not_dist_in_project (c : list string) g f r :
  f <> "dist" ->
  ~ ((c ++ ["dist"]) ++ [g])%list `prefix_of` (c ++ f :: r)%list.
Proof.
  intros Hf. rewrite <- !app_assoc. intros H%prefix_app_inv.
  by apply prefix_cons_inv_1 in H.
Qed.

(** X6: when [copyFiles] returns normally, every listed static file and
    project file that is a file or a directory at its source path is in
    [dist] under its name, with everything that was below it. *)
Theorem copyFiles_delivers e fs :
  outcome (copyFiles e) fs = Return tt ->
  (forall f n,
     f ∈ staticFiles ->
     fs !! (cwd e ++ ["src"; f])%list = Some n -> (forall t, n <> Symlink t) ->
     forall r x,
       fs !! (cwd e ++ "src" :: f :: r)%list = Some x ->
       exec (copyFiles e) fs !! (cwd e ++ "dist" :: f :: r)%list = Some x) /\
  (forall f n,
     f ∈ projectFiles ->
     fs !! (cwd e ++ [f])%list = Some n -> (forall t, n <> Symlink t) ->
     forall r x,
       fs !! (cwd e ++ f :: r)%list = Some x ->
       exec (copyFiles e) fs !! (cwd e ++ "dist" :: f :: r)%list = Some x).
Proof.
  intros Hrun. unfold outcome, exec, copyFiles, bind in *.
  destruct (copyEach e sourceDirectory staticFiles fs) as [[[]|err] fs1]
    eqn:H1; [|done].
  destruct (copyEach e projectDirectory projectFiles fs1) as [r2 fs2] eqn:H2.
  cbn in Hrun. subst r2. cbn [snd].
  assert (Hfs1 : fs1 = exec (copyEach e sourceDirectory staticFiles) fs)
    by (unfold exec; by rewrite H1).
  assert (Hfs2 : fs2 = exec (copyEach e projectDirectory projectFiles) fs1)
    by (unfold exec; by rewrite H2).
  split.
  - intros f n Hf Hn Hlink r x Hx.
    change (cwd e ++ "dist" :: f :: r)%list
      with (cwd e ++ ["dist"] ++ f :: r)%list.
    rewrite app_assoc, Hfs2. apply copyEach_keeps.
    + intros g Hg. destruct (project_paths e g Hg) as [-> _].
      intros Hpre%prefix_name. subst g. by apply (static_not_project f).
    + apply (copyEach_delivers e sourceDirectory staticFiles
               (cwd e ++ ["dist"]) (cwd e ++ ["src"]) fs fs1 f n); try done.
      * apply (bool_decide_unpack _). by vm_compute.
      * intros g Hg. destruct (static_paths e g Hg) as [-> ->].
        split; [done|]. split; [done|]. intros r'. apply not_dist_in_src.
      * by rewrite <- app_assoc.
      * by rewrite <- app_assoc.
  - intros f n Hf Hn Hlink r x Hx.
    change (cwd e ++ "dist" :: f :: r)%list
      with (cwd e ++ ["dist"] ++ f :: r)%list.
    rewrite app_assoc.
    apply (copyEach_delivers e projectDirectory projectFiles
             (cwd e ++ ["dist"]) (cwd e) fs1 fs2 f n); try done.
    + apply (bool_decide_unpack _). by vm_compute.
    + intros g Hg. destruct (project_paths e g Hg) as [-> ->].
      split; [done|]. split; [done|]. intros r'.
      apply not_dist_in_project. by apply project_not_dist.
    + rewrite Hfs1. apply copyEach_keeps; [|done].
      intros g Hg. destruct (static_paths e g Hg) as [-> _].
      apply (not_dist_in_project _ _ _ []). by apply project_not_dist.
    + rewrite Hfs1. apply copyEach_keeps; [|done].
      intros g Hg. destruct (static_paths e g Hg) as [-> _].
      apply not_dist_in_project. by apply project_not_dist.
Qed.

(** *** clean, and clean before copyFiles *)

Lemma clean_files_base found f :
  f ∈ (staticFiles ++ projectFiles ++ ["module"])%list -> f ∈ clean_files found.
Proof.
  intros Hf. unfold clean_files. destruct found; [|done].
  apply elem_of_app. by left.
Qed.

Lemma clean_returns e fs : clean e fs = (Return tt, exec (clean e) fs).
Proof. unfold exec. by rewrite clean_run. Qed.

Lemma clean_subseteq e fs : exec (clean e) fs ⊆ fs.
Proof.
  apply map_subseteq_spec. intros k n.
  unfold exec. rewrite clean_run. cbn [snd].
  rewrite lookup_removeEach. by case_decide.
Qed.

Lemma clean_gone e fs f k :
  f ∈ (staticFiles ++ projectFiles ++ ["module"])%list ->
  (cwd e ++ ["dist"; f])%list `prefix_of` k ->
  exec (clean e) fs !! k = None.
Proof.
  intros Hf Hk. apply (proj1 (lookup_clean e fs k) f); [|done].
  by apply clean_files_base.
Qed.


(** X2: [clean] removes [dist/styles] and all below it when the style
    sheet [src/styles/crossblade.css] exists; when it does not, what is at
    and below [dist/styles] is left as it is. *)
Theorem clean_styles_conditional e fs k :
  (cwd e ++ ["dist"; "styles"])%list `prefix_of` k ->
  (outcome (existsSync (cwd e ++ ["src"; "styles"; "crossblade.css"])%list) fs
   = Return true ->
   exec (clean e) fs !! k = None) /\
  (outcome (existsSync (cwd e ++ ["src"; "styles"; "crossblade.css"])%list) fs
   = Return false ->
   exec (clean e) fs !! k = fs !! k).
Proof.
  intros Hk. pose proof (lookup_clean e fs k) as [Hgone Hkept].
  cbn zeta in *. unfold outcome, existsSync. cbn [fst].
  split; intros [= Hfound]; rewrite Hfound in *.
  - apply (Hgone "styles"); [|done]. unfold clean_files.
    apply elem_of_app. right. by apply list_elem_of_singleton.
  - apply Hkept. intros f Hf Hpre.
    destruct Hk as [r ->].
    rewrite <- app_assoc in Hpre. apply prefix_app_inv in Hpre.
    apply prefix_cons_inv_2, prefix_cons_inv_1 in Hpre. subst f.
    unfold clean_files, staticFiles, projectFiles in Hf. cbn in Hf.
    repeat (apply elem_of_cons in Hf as [Hf|Hf]; [discriminate Hf|]).
    by apply elem_of_nil in Hf.
Qed.


(** X4: [clean] is idempotent on the file system, also when the first run
    changes whether the style sheet is seen. *)
Theorem clean_idempotent e fs :
  exec (clean e) (exec (clean e) fs) = exec (clean e) fs.
Proof.
  pose proof (clean_subseteq e fs) as Hsub.
  apply map_eq. intros k.
  unfold exec at 1. rewrite clean_run. cbn [snd].
  rewrite lookup_removeEach. case_decide as Hex; [|done].
  unfold exec. rewrite clean_run. cbn [snd]. rewrite lookup_removeEach.
  rewrite decide_True; [done|].
  destruct (resolves 40 (exec (clean e) fs) _) eqn:Hfound2.
  - by rewrite (resolves_weaken _ _ _ _ Hsub Hfound2).
  - destruct (resolves 40 fs _); [|done].
    unfold clean_files in *. apply Exists_app. by left.
Qed.

(** X7: [clean] followed by [copyFiles], the order [build] runs them in,
    leaves nothing in [dist] for a listed file that has no source: when
    nothing is at the source path of a static or project file, nothing is at
    or below its path in [dist] afterwards, whatever was there before and
    whether or not the copying fails on another file. *)
Theorem rebuild_leaves_no_stale e fs :
  (forall f r,
     f ∈ staticFiles -> fs !! (cwd e ++ ["src"; f])%list = None ->
     exec (clean e ;;; copyFiles e) fs !! (cwd e ++ "dist" :: f :: r)%list
     = None) /\
  (forall f r,
     f ∈ projectFiles -> fs !! (cwd e ++ [f])%list = None ->
     exec (clean e ;;; copyFiles e) fs !! (cwd e ++ "dist" :: f :: r)%list
     = None).
Proof.
  assert (Hseq : exec (clean e ;;; copyFiles e) fs
                 = exec (copyFiles e) (exec (clean e) fs)).
  { unfold exec at 1, bind. by rewrite clean_returns. }
  pose proof (clean_gone e fs) as Hgone.
  pose proof (clean_subseteq e fs) as Hsub.
  assert (Hlong : forall f r,
            ~ (cwd e ++ "dist" :: f :: r)%list `prefix_of` (cwd e ++ ["dist"])%list).
  { intros f r H%prefix_app_inv. apply prefix_length in H. cbn in H. lia. }
  split; intros f r Hf Hsrc; rewrite Hseq.
  - set (k := (cwd e ++ "dist" :: f :: r)%list).
    set (s := ((cwd e ++ ["src"]) ++ [f])%list).
    assert (Hsrc' : fs !! s = None) by (unfold s; by rewrite <- app_assoc).
    refine (proj1 (copyFiles_invariant
              (fun fs0 => fs0 !! k = None /\ fs0 !! s = None) e _ _ _ _)).
    + split.
      * apply (Hgone f); [|by exists r; unfold k; rewrite <- app_assoc].
        apply elem_of_app. by left.
      * destruct (exec (clean e) fs !! s) as [n|] eqn:Hn; [|done].
        eapply lookup_weaken in Hn; [|exact Hsub]. congruence.
    + intros g fs0 Hg [Hk0 Hs0] Hfound. apply copy_none_pair; try done.
      * unfold s. by destruct (cwd e).
      * unfold k.
        change (cwd e ++ "dist" :: f :: r)%list
          with (cwd e ++ ["dist"] ++ f :: r)%list.
        rewrite app_assoc. by intros ->%prefix_name.
      * rewrite removelast_last. apply Hlong.
      * unfold s. apply (not_dist_in_src (cwd e) g f []).
      * rewrite removelast_last. unfold s. rewrite <- app_assoc.
        intros H%prefix_app_inv. by apply prefix_cons_inv_1 in H.
    + intros g fs0 Hg [Hk0 Hs0] Hfound. apply copy_none_pair; try done.
      * unfold s. by destruct (cwd e).
      * unfold k.
        change (cwd e ++ "dist" :: f :: r)%list
          with (cwd e ++ ["dist"] ++ f :: r)%list.
        rewrite app_assoc. intros Hpre%prefix_name. subst g.
        by destruct (static_not_project f).
      * rewrite removelast_last. apply Hlong.
      * unfold s. apply (not_dist_in_src (cwd e) g f []).
      * rewrite removelast_last. unfold s. rewrite <- app_assoc.
        intros H%prefix_app_inv. by apply prefix_cons_inv_1 in H.
  - set (k := (cwd e ++ "dist" :: f :: r)%list).
    set (s := (cwd e ++ [f])%list).
    pose proof (project_not_dist f Hf) as Hnd.
    refine (proj1 (copyFiles_invariant
              (fun fs0 => fs0 !! k = None /\ fs0 !! s = None) e _ _ _ _)).
    + split.
      * apply (Hgone f); [|by exists r; unfold k; rewrite <- app_assoc].
        apply elem_of_app. right. apply elem_of_app. by left.
      * destruct (exec (clean e) fs !! s) as [n|] eqn:Hn; [|done].
        eapply lookup_weaken in Hn; [|exact Hsub]. unfold s in Hn. congruence.
    + intros g fs0 Hg [Hk0 Hs0] Hfound. apply copy_none_pair; try done.
      * unfold s. by destruct (cwd e).
      * unfold k.
        change (cwd e ++ "dist" :: f :: r)%list
          with (cwd e ++ ["dist"] ++ f :: r)%list.
        rewrite app_assoc. intros Hpre%prefix_name. subst g.
        by destruct (static_not_project f).
      * rewrite removelast_last. apply Hlong.
      * unfold s. by apply (not_dist_in_project (cwd e) g f []).
      * rewrite removelast_last. unfold s.
        intros H%prefix_app_inv. by apply prefix_cons_inv_1 in H.
    + intros g fs0 Hg [Hk0 Hs0] Hfound. apply copy_none_pair; try done.
      * unfold s. by destruct (cwd e).
      * unfold k.
        change (cwd e ++ "dist" :: f :: r)%list
          with (cwd e ++ ["dist"] ++ f :: r)%list.
        rewrite app_assoc. by intros ->%prefix_name.
      * rewrite removelast_last. apply Hlong.
      * unfold s. by apply (not_dist_in_project (cwd e) g f []).
      * rewrite removelast_last. unfold s.
        intros H%prefix_app_inv. by apply prefix_cons_inv_1 in H.
Qed.

(** *** link: failures, what a run leaves, and the clean flag *)

(** X8: [link] checks [module.json] first.  When it is missing [link]
    throws [Error('Could not find module.json')] whatever the configuration
    and the clean flag are; when it is there and [getDataPath] throws, [link]
    throws that same error.  In both cases the disk is untouched. *)
Theorem link_precondition_failures e fs :
  (outcome (existsSync (cwd e ++ ["src"; "module.json"])%list) fs = Return false ->
   link e fs = (Throw (Error "Could not find module.json"), fs)) /\
  (forall err,
     outcome (existsSync (cwd e ++ ["src"; "module.json"])%list) fs = Return true ->
     outcome (getDataPath e) fs = Throw err ->
     link e fs = (Throw err, fs)).
Proof.
  rewrite <- resolve_module_json. unfold outcome at 1 2, existsSync. cbn [fst].
  split.
  - intros [= Hmj]. unfold link, bind, existsSync. by rewrite Hmj.
  - intros err [= Hmj] Herr. unfold link, bind, existsSync. rewrite Hmj.
    cbn [ret]. by rewrite getDataPath_run, Herr.
Qed.

Lemma removelast_linkDirectory dp :
  removelast (linkDirectory dp "modules") = (dp ++ ["Data"; "modules"])%list.
Proof.
  rewrite linkDirectory_modules.
  change (dp ++ ["Data"; "modules"; "crossblade"])%list
    with (dp ++ ["Data"; "modules"] ++ ["crossblade"])%list.
  by rewrite app_assoc, removelast_last.
Qed.

(** A run without the clean flag that returns normally found the link
    directory, or made the link. *)
Lemma link_returns e fs :
  argv_clean e = false ->
  outcome (link e) fs = Return tt ->
  exists dp,
    resolves 40 fs (path_resolve (cwd e) [sourceDirectory; "module.json"]) = true /\
    outcome (getDataPath e) fs = Return dp /\
    let L := linkDirectory dp "modules" in
    let made := fs ∪ dirs_of (removelast L) in
    (resolves 40 fs L = true /\ exec (link e) fs = fs) \/
    (resolves 40 fs L = false /\
     lookup_node made L = None /\
     (forall q, q ∈ prefixes (removelast L) -> is_file (fs !! q) = false) /\
     exec (link e) fs = <[L := Symlink (cwd e ++ ["dist"])%list]> made).
Proof.
  intros Hclean Hret.
  destruct (resolves 40 fs (path_resolve (cwd e) [sourceDirectory; "module.json"]))
    eqn:Hmj.
  2:{ unfold outcome, link, bind, existsSync in Hret. by rewrite Hmj in Hret. }
  destruct (outcome (getDataPath e) fs) as [dp|err] eqn:Hdp.
  2:{ unfold outcome, link, bind, existsSync in Hret. rewrite Hmj in Hret.
      cbn [ret] in Hret. by rewrite getDataPath_run, Hdp in Hret. }
  exists dp. split; [done|]. split; [done|]. cbn zeta.
  pose proof (link_checked e fs dp Hmj Hdp) as Hl.
  rewrite Hclean in Hl. cbn zeta in Hl. unfold bind at 1, existsSync in Hl.
  unfold outcome in Hret. unfold exec. rewrite Hl in *. clear Hl.
  destruct (resolves 40 fs (linkDirectory dp "modules")) eqn:Hlinked;
    cbn [negb] in *; [by left|]. right. split; [done|].
  unfold bind, ensureDir in *.
  destruct (existsb _ _) eqn:Hex; [done|].
  unfold symlink in *.
  destruct (lookup_node (fs ∪ dirs_of (removelast (linkDirectory dp "modules")))
              (linkDirectory dp "modules")) as [x|] eqn:Hl; [done|].
  split; [done|]. split.
  - intros q Hq. destruct (is_file (fs !! q)) eqn:Hf; [|done].
    assert (existsb (fun q => is_file (fs !! q))
              (prefixes (removelast (linkDirectory dp "modules"))) = true);
      [|congruence].
    apply existsb_exists. exists q. split; [by apply list_elem_of_In|done].
  - destruct (lookup_node _ (removelast _)) as [[c| |t]|]; try done.
Qed.

(** X9: when [link] without the clean flag returns normally, something is
    at [<dataPath>/Data/modules/crossblade]; when nothing was there before,
    it is a link to [<cwd>/dist] and the directories above it exist. *)
Theorem link_establishes_link e fs :
  argv_clean e = false ->
  outcome (link e) fs = Return tt ->
  exists dp,
    outcome (getDataPath e) fs = Return dp /\
    let L := (dp ++ ["Data"; "modules"; "crossblade"])%list in
    is_Some (exec (link e) fs !! L) /\
    (fs !! L = None ->
     exec (link e) fs !! L = Some (Symlink (cwd e ++ ["dist"])%list) /\
     forall q, q ∈ prefixes (dp ++ ["Data"; "modules"])%list ->
               is_Some (exec (link e) fs !! q)).
Proof.
  intros Hclean Hret.
  destruct (link_returns e fs Hclean Hret) as (dp & _ & Hdp & H).
  exists dp. split; [done|]. cbn zeta in *.
  rewrite removelast_linkDirectory, linkDirectory_modules in H.
  set (L := (dp ++ ["Data"; "modules"; "crossblade"])%list) in *.
  assert (HL : L <> []) by (unfold L; by destruct dp).
  destruct H as [[Hlinked ->]|(Hlinked & Hnone & _ & ->)].
  - apply resolves_lookup in Hlinked as [x Hx].
    assert (Hx' : fs !! L = Some x) by by destruct L.
    split; [eauto|]. intros Hn. congruence.
  - rewrite lookup_insert_eq. split; [eauto|]. intros _. split; [done|].
    intros q Hq. destruct (decide (L = q)) as [<-|Hne].
    + rewrite lookup_insert_eq. eauto.
    + rewrite lookup_insert_ne by done. by apply lookup_ensured.
Qed.


Lemma remove_twice p fs :
  exec (remove p) (exec (remove p) fs) = exec (remove p) fs.
Proof.
  apply map_eq. intros k. rewrite !lookup_remove. by case_decide.
Qed.

Lemma link_clean_cases e fs :
  argv_clean e = true ->
  exec (link e) fs = fs \/
  exists dp,
    outcome (getDataPath e) fs = Return dp /\
    exec (link e) fs = exec (remove (linkDirectory dp "modules")) fs.
Proof.
  intros Hclean.
  destruct (resolves 40 fs (path_resolve (cwd e) [sourceDirectory; "module.json"]))
    eqn:Hmj.
  - destruct (outcome (getDataPath e) fs) as [dp|err] eqn:Hdp.
    + right. exists dp. split; [done|]. unfold exec at 1.
      by rewrite (link_checked e fs dp Hmj Hdp), Hclean.
    + left. unfold exec, link, bind, existsSync. rewrite Hmj. cbn [ret].
      by rewrite getDataPath_run, Hdp.
  - left. unfold exec, link, bind, existsSync. by rewrite Hmj.
Qed.

(** X11: [link] with the clean flag is idempotent on the file system. *)
Theorem link_clean_idempotent e fs :
  argv_clean e = true ->
  exec (link e) (exec (link e) fs) = exec (link e) fs.
Proof.
  intros Hclean.
  destruct (link_clean_cases e fs Hclean) as [H|(dp & Hdp & H)];
    [by rewrite !H|].
  destruct (link_clean_cases e (exec (link e) fs) Hclean)
    as [H'|(dp' & Hdp' & H')]; [done|].
  rewrite H', <- (getDataPath_fixed _ _ _ _ _ Hdp Hdp'), H.
  apply remove_twice.
Qed.

Lemma getDataPath_weaken e e' fs fs' dp :
  cwd e' = cwd e -> foundryconfig e' = foundryconfig e -> fs ⊆ fs' ->
  outcome (getDataPath e) fs = Return dp ->
  outcome (getDataPath e') fs' = Return dp.
Proof.
  intros Hcwd Hconfig Hsub.
  intros (config & d & Hc & Hd & Hne & Hp & Hex)%getDataPath_Return.
  apply getDataPath_Return. exists config, d.
  split; [congruence|]. split; [exact Hd|]. split; [exact Hne|].
  split; [congruence|]. exact (resolves_weaken _ _ _ _ Hsub Hex).
Qed.


(** X13: a second [link] after one that returned normally.  When
    [<cwd>/dist] is a directory or a file, the second run returns normally
    and changes nothing.  When the first run made the link and nothing is
    at [<cwd>/dist], the link dangles, [existsSync] does not see it, and the
    second run fails in [symlink] with [EEXIST], the disk unchanged. *)
Theorem link_again e fs :
  argv_clean e = false ->
  outcome (link e) fs = Return tt ->
  let linked := exec (link e) fs in
  ((exists n, lookup_node linked (cwd e ++ ["dist"])%list = Some n /\
              forall t, n <> Symlink t) ->
   link e linked = (Return tt, linked)) /\
  (forall dp,
     outcome (getDataPath e) fs = Return dp ->
     fs !! (dp ++ ["Data"; "modules"; "crossblade"])%list = None ->
     lookup_node linked (cwd e ++ ["dist"])%list = None ->
     link e linked = (Throw (SystemError EEXIST), linked)).
Proof.
  intros Hclean Hret linked.
  destruct (link_returns e fs Hclean Hret) as (dp & Hmj & Hdp & H).
  pose proof (link_keeps e fs Hclean) as Hsub. fold linked in Hsub.
  pose proof (resolves_weaken _ _ _ _ Hsub Hmj) as Hmj'.
  pose proof (getDataPath_weaken e e fs linked dp eq_refl eq_refl Hsub Hdp)
    as Hdp'.
  pose proof (link_checked e linked dp Hmj' Hdp') as Hl.
  rewrite Hclean in Hl. cbn zeta in *. unfold bind at 1, existsSync in Hl.
  set (L := linkDirectory dp "modules") in *.
  assert (HL : L <> []) by apply linkDirectory_nonempty.
  fold linked in H.
  split.
  - intros (n & Hn & Hlink). rewrite Hl.
    destruct H as [[Hlinked Hsame]|(_ & _ & _ & Hmade)].
    + rewrite Hsame. by rewrite Hlinked.
    + assert (Hres : resolves 40 linked L = true).
      { assert (HlL : lookup_node linked L = Some (Symlink (cwd e ++ ["dist"])%list)).
        { destruct L; [done|]. cbn. rewrite Hmade. apply lookup_insert_eq. }
        rewrite (resolves_link 39 _ _ _ HlL). by apply (resolves_node _ _ _ n). }
      by rewrite Hres.
  - intros dp0 Hdp0 Hfresh Hdist.
    assert (dp0 = dp) by congruence. subst dp0.
    rewrite <- linkDirectory_modules in Hfresh. fold L in Hfresh.
    destruct H as [[Hlinked _]|(_ & Hnone & Hfiles & Hmade)].
    { apply resolves_lookup in Hlinked as [x Hx].
      destruct L; [done|]. cbn in Hx. congruence. }
    assert (HlL : lookup_node linked L = Some (Symlink (cwd e ++ ["dist"])%list)).
    { destruct L; [done|]. cbn. rewrite Hmade. apply lookup_insert_eq. }
    assert (Hres : resolves 40 linked L = false).
    { rewrite (resolves_link 39 _ _ _ HlL). by apply resolves_absent. }
    rewrite Hl, Hres. cbn [negb]. unfold bind, ensureDir.
    assert (Hex : existsb (fun q => is_file (linked !! q)) (prefixes (removelast L))
                  = false).
    { apply not_true_iff_false. intros (q & Hq & Hf)%existsb_exists.
      apply list_elem_of_In in Hq.
      rewrite Hmade in Hf.
      assert (Hne : L <> q).
      { intros <-. rewrite lookup_insert_eq in Hf. done. }
      rewrite lookup_insert_ne in Hf by done.
      rewrite lookup_union, lookup_dirs_of, decide_True in Hf by done.
      specialize (Hfiles q Hq). destruct (fs !! q) as [[c| |t]|]; done. }
    rewrite Hex.
    rewrite union_absorb.
    + unfold symlink. by rewrite HlL.
    + intros k. rewrite lookup_dirs_of. case_decide as Hq; [|by intros [? ?]].
      intros _. rewrite Hmade.
      destruct (decide (L = k)) as [<-|Hne].
      * rewrite lookup_insert_eq. eauto.
      * rewrite lookup_insert_ne by done. by apply lookup_ensured.
Qed.

(** *** Concrete runs *)


Lemma clean_styles_conditional_witness :
  outcome (existsSync ["w"; "src"; "styles"; "crossblade.css"]) Staged.disk
    = Return false /\
  exec (clean Scenario.project) Staged.disk
    !! ["w"; "dist"; "styles"; "crossblade.css"]
  = Staged.disk !! ["w"; "dist"; "styles"; "crossblade.css"].
Proof.
  split; [vm_compute; reflexivity|].
  apply (proj2 (clean_styles_conditional Scenario.project Staged.disk
                  ["w"; "dist"; "styles"; "crossblade.css"]
                  (ex_intro _ ["crossblade.css"] eq_refl))).
  vm_compute. reflexivity.
Defined.



Lemma copyFiles_delivers_witness :
  outcome (copyFiles Scenario.project) Scenario.disk = Return tt /\
  exec (copyFiles Scenario.project) Scenario.disk
    !! ["w"; "dist"; "lang"; "en.json"] = Some (File "en").
Proof.
  assert (Hret : outcome (copyFiles Scenario.project) Scenario.disk = Return tt)
    by (vm_compute; reflexivity).
  split; [exact Hret|].
  apply (proj1 (copyFiles_delivers Scenario.project Scenario.disk Hret)
           "lang" Dir).
  - repeat constructor.
  - reflexivity.
  - intros t Ht. discriminate Ht.
  - reflexivity.
Defined.

Lemma rebuild_leaves_no_stale_witness :
  Staged.disk !! ["w"; "src"; "assets"] = None /\
  Staged.disk !! ["w"; "dist"; "assets"; "old.png"] = Some (File "old") /\
  exec (clean Scenario.project ;;; copyFiles Scenario.project) Staged.disk
    !! ["w"; "dist"; "assets"; "old.png"] = None.
Proof.
  split; [reflexivity|]. split; [reflexivity|].
  apply (proj1 (rebuild_leaves_no_stale Scenario.project Staged.disk)
           "assets" ["old.png"]).
  - repeat constructor.
  - reflexivity.
Defined.

Lemma link_precondition_failures_witness :
  outcome (existsSync ["w"; "src"; "module.json"]) (∅ : gmap (list string) node)
    = Return false /\
  link Scenario.project ∅ = (Throw (Error "Could not find module.json"), ∅).
Proof.
  split; [vm_compute; reflexivity|].
  apply (proj1 (link_precondition_failures Scenario.project ∅)).
  vm_compute. reflexivity.
Defined.

Lemma link_establishes_link_witness :
  argv_clean Scenario.project = false /\
  outcome (link Scenario.project) Scenario.disk = Return tt /\
  exists dp,
    outcome (getDataPath Scenario.project) Scenario.disk = Return dp /\
    is_Some (exec (link Scenario.project) Scenario.disk
               !! (dp ++ ["Data"; "modules"; "crossblade"])%list).
Proof.
  assert (Hret : outcome (link Scenario.project) Scenario.disk = Return tt)
    by (vm_compute; reflexivity).
  split; [reflexivity|]. split; [exact Hret|].
  destruct (link_establishes_link Scenario.project Scenario.disk eq_refl Hret)
    as (dp & Hdp & Hlink & _).
  exists dp. split; [exact Hdp|exact Hlink].
Defined.


Lemma link_clean_idempotent_witness :
  argv_clean Scenario.project_clean = true /\
  exec (link Scenario.project_clean)
    (exec (link Scenario.project_clean) Scenario.disk)
  = exec (link Scenario.project_clean) Scenario.disk.
Proof.
  split; [reflexivity|].
  apply (link_clean_idempotent Scenario.project_clean Scenario.disk).
  reflexivity.
Defined.


Lemma link_again_witness :
  argv_clean Scenario.project = false /\
  outcome (link Scenario.project) Scenario.disk = Return tt /\
  link Scenario.project (exec (link Scenario.project) Scenario.disk)
  = (Throw (SystemError EEXIST), exec (link Scenario.project) Scenario.disk).
Proof.
  assert (Hret : outcome (link Scenario.project) Scenario.disk = Return tt)
    by (vm_compute; reflexivity).
  split; [reflexivity|]. split; [exact Hret|].
  apply (proj2 (link_again Scenario.project Scenario.disk eq_refl Hret) ["data"]).
  - vm_compute. reflexivity.
  - reflexivity.
  - vm_compute. reflexivity.
Defined.

End MoreGulpFacts.

(** ** The log levels *)

(** X14: the numeric values of [LogLevel] are pairwise distinct and are
    exactly the integers from 0 to 5, so a stored number stands for at most
    one level and every number in that range for one. *)
Theorem LogLevel_value_injective :
  (forall l1 l2 : DevMode.LogLevel,
     DevMode.LogLevel_value l1 = DevMode.LogLevel_value l2 -> l1 = l2) /\
  (forall z : Z,
     (exists l, DevMode.LogLevel_value l = z) <-> (0 <= z <= 5)%Z).
Proof.
  split.
  - intros l1 l2. destruct l1, l2; cbn; intros H;
      (reflexivity || discriminate H).
  - intros z. split.
    + intros [l <-]. destruct l; cbn; lia.
    + intros Hz.
      assert (z = 0 \/ z = 1 \/ z = 2 \/ z = 3 \/ z = 4 \/ z = 5)%Z
        as [->|[->|[->|[->|[->| ->]]]]] by lia.
      * by exists DevMode.NONE.
      * by exists DevMode.INFO.
      * by exists DevMode.ERROR.
      * by exists DevMode.DEBUG.
      * by exists DevMode.WARN.
      * by exists DevMode.ALL.
Qed.

Lemma LogLevel_value_injective_witness :
  DevMode.LogLevel_value DevMode.WARN = 4%Z /\
  exists l, DevMode.LogLevel_value l = 4%Z.
Proof.
  split; [reflexivity|].
  apply (proj2 LogLevel_value_injective 4%Z). lia.
Defined.
